(** * The replication update loop of Nominatim

    A shallow embedding of [nominatim/clicmd/replication.py]: the
    [UpdateReplication] sub-command, its configuration checks, its
    [while True] loop and its progress report.

    Python integers are [Z]; strings are [string].  An aware UTC
    [datetime] is its number of microseconds since the epoch and a
    [timedelta] is a number of microseconds, so that subtraction is exact
    as it is in Python.  [timedelta.total_seconds()] yields a double: it
    is modelled with the IEEE 754 specification of the standard library
    ([SpecFloat], binary64).

    Every call that leaves the module (database, replication client,
    indexer, logger, clock, [time.sleep], [socket.setdefaulttimeout])
    appends one event to the history of the run; what such a call
    returns is read from an environment that may depend on the whole
    history so far.  Calls into the other modules of the project
    (database, replication client, indexer) are modelled as returning:
    an exception raised inside one of them ends the run in the source
    and is outside the model.  The two [UsageError]s raised by the
    module itself are modelled, and so are the exceptions with which
    [time.sleep] and [socket.setdefaulttimeout] refuse the number of
    seconds they are handed: the module passes both numbers on
    unchecked. *)

From Stdlib Require Import ZArith List String Ascii Bool Lia DecimalString.
From Stdlib Require Import Floats.SpecFloat.
Import ListNotations.
Local Open Scope Z_scope.

(** ** Python values *)

Module Py.

(** [needle in haystack] on [str]: substring test. *)
Fixpoint contains (needle haystack : string) : bool :=
  String.prefix needle haystack
  || match haystack with
     | EmptyString => false
     | String _ rest => contains needle rest
     end.

(** [x or default] where [x] is an [int] or [None]: [None] and [0]
    are falsy. *)
Definition or_default (x : option Z) (default : Z) : Z :=
  match x with
  | Some v => if v =? 0 then default else v
  | None => default
  end.

(** [str(n)], also ["%d" % n], for an [int]. *)
Definition str_int (n : Z) : string :=
  NilZero.string_of_int (Z.to_int n).

(** ["%02d" % n] for [0 <= n]. *)
Definition str_02d (n : Z) : string :=
  if n <? 10 then String "0" (str_int n) else str_int n.

(** A Python [float] is a binary64 number. *)
Definition prec : Z := 53.
Definition emax : Z := 1024.

Definition float := spec_float.

(** The integer operand of a true division, not yet rounded. *)
Definition exact_int (a : Z) : float :=
  match a with
  | Z0 => S754_zero false
  | Zpos p => S754_finite false p 0
  | Zneg p => S754_finite true p 0
  end.

(** [a / b] on [int]s: the double nearest to the exact quotient. *)
Definition true_divide (a b : Z) : float :=
  SFdiv prec emax (exact_int a) (exact_int b).

(** A magnitude with its sign. *)
Definition with_sign (negative : bool) (magnitude : Z) : Z :=
  if negative then - magnitude else magnitude.

(** [int(x)]: truncation toward zero.  Infinities and NaN make [int]
    raise; no quotient by a non-zero constant of a [datetime]
    difference is one, they are mapped to [0] here. *)
Definition int_of_float (x : float) : Z :=
  match x with
  | S754_finite s m e =>
      with_sign s (if 0 <=? e then Z.pos m * 2 ^ e else Z.pos m / 2 ^ (- e))
  | _ => 0
  end.

End Py.

(** ** [datetime] *)

Module Dt.

(** Microseconds since the epoch, UTC. *)
Definition datetime := Z.
(** Microseconds. *)
Definition timedelta := Z.

Definition us_per_second : Z := 1000000.

(** [a - b] on aware datetimes. *)
Definition sub (a b : datetime) : timedelta := a - b.

(** [dt.timedelta(seconds=n)]. *)
Definition of_seconds (n : Z) : timedelta := n * us_per_second.

(** [delta.total_seconds()]. *)
Definition total_seconds (delta : timedelta) : Py.float :=
  Py.true_divide delta us_per_second.

(** [str(delta)]: ["[D day[s], ]H:MM:SS[.UUUUUU]"], on the normalised
    fields [days], [seconds], [microseconds]. *)
Definition str (delta : timedelta) : string :=
  let microseconds := delta mod us_per_second in
  let total := delta / us_per_second in
  let days := total / 86400 in
  let seconds := total mod 86400 in
  let mm := seconds / 60 in
  let ss := seconds mod 60 in
  let hh := mm / 60 in
  let mm := mm mod 60 in
  let s := (Py.str_int hh ++ ":" ++ Py.str_02d mm ++ ":" ++ Py.str_02d ss)%string in
  let plural := if Z.abs days =? 1 then EmptyString else "s"%string in
  let s :=
    if days =? 0 then s
    else (Py.str_int days ++ " day" ++ plural ++ ", " ++ s)%string in
  if microseconds =? 0 then s
  else
    let u := Py.str_int microseconds in
    let pad := String.concat "" (repeat "0"%string (6 - String.length u)%nat) in
    (s ++ "." ++ pad ++ u)%string.

End Dt.

(** ** Data model *)

(** Modelled from the spec: the enumeration [replication.UpdateState] is
    declared in [nominatim/tools/replication.py], which is not part of
    the sources at hand.  The spec gives it two outcomes, "nothing new
    was available" and "one or more diffs were applied"; the loop only
    ever compares a state with [NO_CHANGES] and reads its [.value]. *)
Inductive UpdateState : Type :=
| NO_CHANGES
| CHANGED.

(** [state is not replication.UpdateState.NO_CHANGES] *)
Definition is_not_NO_CHANGES (state : UpdateState) : bool :=
  match state with
  | NO_CHANGES => false
  | CHANGED => true
  end.

(** [state is replication.UpdateState.NO_CHANGES] *)
Definition is_NO_CHANGES (state : UpdateState) : bool :=
  match state with
  | NO_CHANGES => true
  | CHANGED => false
  end.

(** [args.config]: the settings the module reads.  [get_int] results are
    the integers the configuration holds. *)
Record Config : Type := {
  REPLICATION_URL : string;
  REPLICATION_UPDATE_INTERVAL : Z;
  REPLICATION_MAX_DIFF : Z;
  REPLICATION_RECHECK_INTERVAL : Z;
  FLATNODE_FILE : string;
  get_libpq_dsn : string;
  get_import_style_file : string
}.

(** A [pathlib.Path], as its [parts]: the anchor first when the path has
    one (["/"] for an absolute POSIX path), then the components.
    [Path("/srv/nominatim")] is [["/"; "srv"; "nominatim"]], [Path("/")]
    is [["/"]] and [Path(".")] is [[]]. *)
Definition Path := list string.

(** The parsed command line, see [add_args]. *)
Record Args : Type := {
  config : Config;
  project_dir : Path;
  data_dir : string;
  osm2pgsql_path : string;
  osm2pgsql_cache : option Z;
  threads : option Z;
  init : bool;
  update_functions : bool;
  check_for_updates : bool;
  once : bool;
  do_index : bool;
  socket_timeout : Z
}.

(** The [params] dictionary of [_update]: the keys set by
    [_osm2pgsql_options_from_args] and those added by [params.update]. *)
Record Osm2pgsqlOptions : Type := {
  opt_osm2pgsql : string;
  opt_osm2pgsql_cache : Z;
  opt_osm2pgsql_style : string;
  opt_threads : Z;
  opt_dsn : string;
  opt_flatnode_file : string
}.

Record Params : Type := {
  options : Osm2pgsqlOptions;
  base_url : string;
  update_interval : Z;
  import_file : Path;
  max_diff_size : Z;
  indexed_only : bool
}.

(** A database connection object, identified by a handle. *)
Definition Conn := nat.

(** [status.get_status] returns (batch timestamp, indexed flag,
    sequence id). *)
Definition StatusRow : Type := (Dt.datetime * bool * Z)%type.

Record Indexer : Type := {
  indexer_dsn : string;
  indexer_threads : Z
}.

Inductive LogLevel : Type :=
| WARNING
| FATAL.

(** ** Events: the calls that leave the module *)

Inductive Event : Type :=
| Connect (dsn : string) (conn : Conn)
| ConnClose (conn : Conn)
| DatetimeNow (t : Dt.datetime)
| ReplicationUpdate (conn : Conn) (params : Params) (state : UpdateState)
| InitReplication (conn : Conn) (url : string)
| CheckForUpdates (conn : Conn) (url : string) (ret : Z)
| CreateFunctions (conn : Conn)
| LogStatus (conn : Conn) (t : Dt.datetime) (phase : string)
| GetStatus (conn : Conn) (row : StatusRow)
| SetIndexed (conn : Conn) (flag : bool)
| IndexerInit (indexer : Indexer)
| IndexBoundaries (indexer : Indexer) (minrank maxrank : Z)
| IndexByRank (indexer : Indexer) (minrank maxrank : Z)
| Log (level : LogLevel) (msg : string)
| Sleep (secs : Z)
| SetDefaultTimeout (secs : Z).

Definition History := list Event.

(** The handles opened so far, and a handle none of them has. *)
Definition opened (h : History) : list Conn :=
  flat_map (fun e => match e with Connect _ c => [c] | _ => [] end) h.

Definition fresh_conn (h : History) : Conn := S (list_max (opened h)).

(** The connections that have been opened and not closed. *)
Definition live_step (l : list Conn) (e : Event) : list Conn :=
  match e with
  | Connect _ c => c :: l
  | ConnClose c => remove Nat.eq_dec c l
  | _ => l
  end.

Definition live (h : History) : list Conn := fold_left live_step h [].

(** The calls into the indexing engine, and the call that sleeps. *)
Definition is_indexing (e : Event) : bool :=
  match e with
  | IndexerInit _ | IndexBoundaries _ _ _ | IndexByRank _ _ _ => true
  | _ => false
  end.

Definition is_apply (e : Event) : bool :=
  match e with
  | ReplicationUpdate _ _ _ => true
  | _ => false
  end.

Definition is_sleep (e : Event) : bool :=
  match e with
  | Sleep _ => true
  | _ => false
  end.

(** What the collaborators answer, given the history of the run. *)
Record Env : Type := {
  clock : History -> Dt.datetime;
  update_outcome : History -> Conn -> Params -> UpdateState;
  status_row : History -> Conn -> StatusRow;
  updates_available : History -> Conn -> string -> Z;
  log_enabled : History -> LogLevel -> bool;
  (** whether the operating system refuses a sleep of this many
      seconds, one that [time.sleep] itself has accepted *)
  sleep_refused : History -> Z -> bool
}.

(** ** The monad of the module: a history, and the exceptions that end
    a run *)

Inductive Exn : Type :=
| UsageError (msg : string)
| UnboundLocalError (name : string)
| ValueError
| OverflowError
| OSError.

Inductive Result (A : Type) : Type :=
| Ok (a : A) (h : History)
| Raised (e : Exn) (h : History).

Arguments Ok {A} a h.
Arguments Raised {A} e h.

Definition M (A : Type) : Type := History -> Result A.

Definition ret {A} (a : A) : M A := fun h => Ok a h.

Definition bind {A B} (m : M A) (k : A -> M B) : M B :=
  fun h =>
    match m h with
    | Ok a h' => k a h'
    | Raised e h' => Raised e h'
    end.

Definition raise {A} (e : Exn) : M A := fun h => Raised e h.

Definition emit (e : Event) : M unit := fun h => Ok tt (h ++ [e]).

Notation "x <- m ;; k" := (bind m (fun x => k))
  (at level 61, m at next level, right associativity).
Notation "m ;; k" := (bind m (fun _ => k))
  (at level 61, right associativity).

Definition history_of {A} (r : Result A) : History :=
  match r with
  | Ok _ h => h
  | Raised _ h => h
  end.

(** The events a computation adds to the history [h]. *)
Definition events_of {A} (m : M A) (h : History) : list Event :=
  skipn (List.length h) (history_of (m h)).

(** The computation [m] only ever appends events, all of them in [P]. *)
Definition emits_only {A} (P : Event -> Prop) (m : M A) : Prop :=
  forall h, exists evs, history_of (m h) = h ++ evs /\ Forall P evs.

(** Starting with the connections [l] open, no connection is open at any
    of the moments at which [evs] calls the indexing engine or sleeps. *)
Definition idle_during_work (l : list Conn) (evs : list Event) : Prop :=
  forall pre e post,
    evs = pre ++ e :: post ->
    is_indexing e || is_sleep e = true ->
    fold_left live_step pre l = [].

(** The connection a call is made on, if it is made on one. *)
Definition conn_of (e : Event) : option Conn :=
  match e with
  | ConnClose c
  | ReplicationUpdate c _ _
  | InitReplication c _
  | CheckForUpdates c _ _
  | CreateFunctions c
  | LogStatus c _ _
  | GetStatus c _
  | SetIndexed c _ => Some c
  | _ => None
  end.

(** Starting with the connections [l] open, every call of [evs] that is
    made on a connection, its [close] included, finds it open. *)
Definition on_open_connections (l : list Conn) (evs : list Event) : Prop :=
  forall pre e post c,
    evs = pre ++ e :: post ->
    conn_of e = Some c ->
    In c (fold_left live_step pre l).

(** [time.sleep] and [socket.setdefaulttimeout] first convert the number
    of seconds they are handed to a signed 64-bit count of nanoseconds:
    an [int] of more than [max_seconds], either way, does not fit and
    raises [OverflowError]; a negative one that fits raises
    [ValueError].  (CPython, on Linux.) *)
Definition max_seconds : Z := (2 ^ 63 - 1) / 1000000000.

Definition seconds_error (secs : Z) : option Exn :=
  if max_seconds <? Z.abs secs then Some OverflowError
  else if secs <? 0 then Some ValueError
  else None.

(** How [time.sleep(secs)], called at history [h], fails if it does:
    on its argument, or with the [OSError] of a sleep that the operating
    system refuses. *)
Definition sleep_failure (env : Env) (h : History) (secs : Z) : option Exn :=
  match seconds_error secs with
  | Some e => Some e
  | None => if sleep_refused env h secs then Some OSError else None
  end.

(** [while True: body], where the body says whether it left through
    [break].  [None]: the loop is still running when the fuel is spent. *)
Inductive Flow : Type :=
| Break
| Continue.

Fixpoint while_true {T} (fuel : nat) (body : M (Flow * T)) : M (option T) :=
  match fuel with
  | O => ret None
  | S fuel' =>
      r <- body ;;
      match fst r with
      | Break => ret (Some (snd r))
      | Continue => while_true fuel' body
      end
  end.

(** ** The module *)

Definition newline : string := String "010"%char EmptyString.

(** [path / name] on a [pathlib.Path], for a [name] that is one relative
    component: the [parts] of the result are those of [path], then
    [name]. *)
Definition path_join (path : Path) (name : string) : Path :=
  path ++ [name].

(** [_osm2pgsql_options_from_args(args, default_cache, default_threads)] *)
Definition _osm2pgsql_options_from_args
    (args : Args) (default_cache default_threads : Z) : Osm2pgsqlOptions :=
  {| opt_osm2pgsql := osm2pgsql_path args;
     opt_osm2pgsql_cache := Py.or_default (osm2pgsql_cache args) default_cache;
     opt_osm2pgsql_style := get_import_style_file (config args);
     opt_threads := Py.or_default (threads args) default_threads;
     opt_dsn := get_libpq_dsn (config args);
     opt_flatnode_file := FLATNODE_FILE (config args) |}.

(** The first statements of [_update]: [params] and [params.update]. *)
Definition update_params (args : Args) : Params :=
  {| options := _osm2pgsql_options_from_args args 2000 1;
     base_url := REPLICATION_URL (config args);
     update_interval := REPLICATION_UPDATE_INTERVAL (config args);
     import_file := path_join (project_dir args) "osmosischange.osc";
     max_diff_size := REPLICATION_MAX_DIFF (config args);
     indexed_only := negb (once args) |}.

Definition geofabrik_host : string := "download.geofabrik.de".

Definition interval_too_low_message : string :=
  ("Update interval too low for download.geofabrik.de." ++ newline
   ++ "Please check install documentation "
   ++ "(https://nominatim.org/release-docs/latest/admin/Import-and-Update#"
   ++ "setting-up-the-update-process).")%string.

Definition invalid_interval : Exn :=
  UsageError "Invalid replication update interval setting.".

Definition bad_no_index : Exn :=
  UsageError "Bad argument '--no-index'.".

(** [round_time] of [_report_update] *)
Definition round_time (delta : Dt.timedelta) : Dt.timedelta :=
  Dt.of_seconds (Py.int_of_float (Dt.total_seconds delta)).

(** The four values [_report_update] hands to the logger; the second is
    absent when the empty string is substituted for it. *)
Record Report : Type := {
  import_duration : Dt.timedelta;
  index_duration : option Dt.timedelta;
  total_duration : Dt.timedelta;
  backlog : Dt.timedelta
}.

Definition report_of (batchdate start_import : Dt.datetime)
    (start_index : option Dt.datetime) (end_ : Dt.datetime) : Report :=
  {| import_duration :=
       round_time (Dt.sub (match start_index with
                           | Some t => t
                           | None => end_
                           end) start_import);
     index_duration :=
       match start_index with
       | Some t => Some (round_time (Dt.sub end_ t))
       | None => None
       end;
     total_duration := round_time (Dt.sub end_ start_import);
     backlog := round_time (Dt.sub end_ batchdate) |}.

(** The format string of [_report_update], filled in. *)
Definition report_message (r : Report) : string :=
  ("Update completed. Import: " ++ Dt.str (import_duration r) ++ ". "
   ++ match index_duration r with
      | Some d => "Indexing: " ++ Dt.str d ++ " "
      | None => ""
      end
   ++ "Total: " ++ Dt.str (total_duration r)
   ++ ". Remaining backlog: " ++ Dt.str (backlog r) ++ ".")%string.

Definition sleeping_message (recheck_interval : Z) : string :=
  ("No new changes. Sleeping for " ++ Py.str_int recheck_interval ++ " sec.")%string.

Section UpdateReplication.

Variable env : Env.
(** [state.value], the number attached to each member of the
    enumeration. *)
Variable value : UpdateState -> Z.

(** *** Collaborators *)

Definition connect (dsn : string) : M Conn :=
  fun h => let conn := fresh_conn h in Ok conn (h ++ [Connect dsn conn]).

Definition conn_close (conn : Conn) : M unit := emit (ConnClose conn).

Definition dt_datetime_now : M Dt.datetime :=
  fun h => let t := clock env h in Ok t (h ++ [DatetimeNow t]).

Definition replication_update (conn : Conn) (params : Params) : M UpdateState :=
  fun h =>
    let state := update_outcome env h conn params in
    Ok state (h ++ [ReplicationUpdate conn params state]).

Definition replication_init_replication (conn : Conn) (url : string) : M unit :=
  emit (InitReplication conn url).

Definition replication_check_for_updates (conn : Conn) (url : string) : M Z :=
  fun h =>
    let r := updates_available env h conn url in
    Ok r (h ++ [CheckForUpdates conn url r]).

Definition refresh_create_functions (conn : Conn) : M unit :=
  emit (CreateFunctions conn).

Definition status_log_status (conn : Conn) (t : Dt.datetime) (phase : string) : M unit :=
  emit (LogStatus conn t phase).

Definition status_get_status (conn : Conn) : M StatusRow :=
  fun h =>
    let row := status_row env h conn in
    Ok row (h ++ [GetStatus conn row]).

Definition status_set_indexed (conn : Conn) (flag : bool) : M unit :=
  emit (SetIndexed conn flag).

Definition new_Indexer (dsn : string) (num_threads : Z) : M Indexer :=
  let indexer := {| indexer_dsn := dsn; indexer_threads := num_threads |} in
  emit (IndexerInit indexer) ;; ret indexer.

Definition index_boundaries (indexer : Indexer) (minrank maxrank : Z) : M unit :=
  emit (IndexBoundaries indexer minrank maxrank).

Definition index_by_rank (indexer : Indexer) (minrank maxrank : Z) : M unit :=
  emit (IndexByRank indexer minrank maxrank).

Definition LOG_fatal (msg : string) : M unit := emit (Log FATAL msg).

Definition LOG_warning (msg : string) : M unit := emit (Log WARNING msg).

Definition LOG_isEnabledFor (level : LogLevel) : M bool :=
  fun h => Ok (log_enabled env h level) h.

(** The call is recorded whether it returns or raises. *)
Definition time_sleep (secs : Z) : M unit :=
  fun h =>
    match sleep_failure env h secs with
    | Some e => Raised e (h ++ [Sleep secs])
    | None => Ok tt (h ++ [Sleep secs])
    end.

Definition socket_setdefaulttimeout (secs : Z) : M unit :=
  emit (SetDefaultTimeout secs) ;;
  match seconds_error secs with
  | Some e => raise e
  | None => ret tt
  end.

(** Reading a local variable that is bound only on some paths. *)
Definition local {A} (name : string) (v : option A) : M A :=
  match v with
  | Some a => ret a
  | None => raise (UnboundLocalError name)
  end.

(** *** [UpdateReplication] *)

Definition _init_replication (args : Args) : M Z :=
  LOG_warning "Initialising replication updates" ;;
  conn <- connect (get_libpq_dsn (config args)) ;;
  replication_init_replication conn (REPLICATION_URL (config args)) ;;
  (if update_functions args
   then LOG_warning "Create functions" ;; refresh_create_functions conn
   else ret tt) ;;
  conn_close conn ;;
  ret 0.

Definition _check_for_updates (args : Args) : M Z :=
  conn <- connect (get_libpq_dsn (config args)) ;;
  r <- replication_check_for_updates conn (REPLICATION_URL (config args)) ;;
  conn_close conn ;;
  ret r.

Definition _report_update (batchdate start_import : Dt.datetime)
    (start_index : option Dt.datetime) : M unit :=
  end_ <- dt_datetime_now ;;
  LOG_warning (report_message (report_of batchdate start_import start_index end_)).

(** The sanity check on the update interval. *)
Definition check_update_interval (params : Params) : M unit :=
  if Py.contains geofabrik_host (base_url params)
     && (update_interval params <? 86400)
  then LOG_fatal interval_too_low_message ;; raise invalid_interval
  else ret tt.

(** [if not args.once: ...]: the check on [--no-index], and the binding
    of [recheck_interval], which stays unbound under [--once]. *)
Definition check_continuous (args : Args) : M (option Z) :=
  if negb (once args) then
    (if negb (do_index args)
     then LOG_fatal "Indexing cannot be disabled when running updates continuously." ;;
          raise bad_no_index
     else ret tt) ;;
    ret (Some (REPLICATION_RECHECK_INTERVAL (config args)))
  else ret None.

(** The body of [while True]. *)
Definition update_iteration (args : Args) (params : Params)
    (recheck_interval : option Z) : M (Flow * UpdateState) :=
  conn <- connect (get_libpq_dsn (config args)) ;;
  start <- dt_datetime_now ;;
  state <- replication_update conn params ;;
  (if is_not_NO_CHANGES state
   then status_log_status conn start "import"
   else ret tt) ;;
  row <- status_get_status conn ;;
  let batchdate := fst (fst row) in
  conn_close conn ;;
  index_start <-
    (if is_not_NO_CHANGES state && do_index args then
       index_start <- dt_datetime_now ;;
       indexer <- new_Indexer (get_libpq_dsn (config args))
                              (Py.or_default (threads args) 1) ;;
       index_boundaries indexer 0 30 ;;
       index_by_rank indexer 0 30 ;;
       conn <- connect (get_libpq_dsn (config args)) ;;
       status_set_indexed conn true ;;
       status_log_status conn index_start "index" ;;
       conn_close conn ;;
       ret (Some index_start)
     else ret None) ;;
  enabled <- LOG_isEnabledFor WARNING ;;
  (if enabled
   then _report_update batchdate start index_start
   else ret tt) ;;
  if once args then ret (Break, state)
  else
    (if is_NO_CHANGES state then
       secs <- local "recheck_interval" recheck_interval ;;
       LOG_warning (sleeping_message secs) ;;
       time_sleep secs
     else ret tt) ;;
    ret (Continue, state).

Definition _update (fuel : nat) (args : Args) : M (option Z) :=
  let params := update_params args in
  check_update_interval params ;;
  recheck_interval <- check_continuous args ;;
  state <- while_true fuel (update_iteration args params recheck_interval) ;;
  ret (option_map value state).

Definition run (fuel : nat) (args : Args) : M (option Z) :=
  socket_setdefaulttimeout (socket_timeout args) ;;
  if init args then
    r <- _init_replication args ;; ret (Some r)
  else if check_for_updates args then
    r <- _check_for_updates args ;; ret (Some r)
  else _update fuel args.

End UpdateReplication.

(** ** The host that a URL names

    Modelled from the spec, which speaks of the host of the replication
    URL; the module itself never takes a URL apart.  The host is what
    stands between ["://"] and the next ["/"], ["?"] or ["#"], without
    user information and port. *)

Fixpoint drop (n : nat) (s : string) : string :=
  match n, s with
  | S n', String _ rest => drop n' rest
  | _, _ => s
  end.

(** What follows the first occurrence of [sep] in [s]. *)
Fixpoint after_first (sep s : string) : option string :=
  if String.prefix sep s then Some (drop (String.length sep) s)
  else
    match s with
    | EmptyString => None
    | String _ rest => after_first sep rest
    end.

Fixpoint take_while (keep : ascii -> bool) (s : string) : string :=
  match s with
  | EmptyString => EmptyString
  | String c rest =>
      if keep c then String c (take_while keep rest) else EmptyString
  end.

Definition spec_url_host (url : string) : string :=
  let rest := match after_first "://" url with
              | Some r => r
              | None => url
              end in
  let authority :=
    take_while (fun c => negb (Ascii.eqb c "/" || Ascii.eqb c "?"
                               || Ascii.eqb c "#")) rest in
  let hostport := match after_first "@" authority with
                  | Some r => r
                  | None => authority
                  end in
  take_while (fun c => negb (Ascii.eqb c ":")) hostport.

(** ** Concrete inputs *)

Definition planet_config : Config :=
  {| REPLICATION_URL := "https://planet.openstreetmap.org/replication/minute";
     REPLICATION_UPDATE_INTERVAL := 75;
     REPLICATION_MAX_DIFF := 50;
     REPLICATION_RECHECK_INTERVAL := 60;
     FLATNODE_FILE := "";
     get_libpq_dsn := "dbname=nominatim";
     get_import_style_file := "import-extratags.style" |}.

Definition geofabrik_config (interval : Z) : Config :=
  {| REPLICATION_URL := "https://download.geofabrik.de/europe/monaco-updates";
     REPLICATION_UPDATE_INTERVAL := interval;
     REPLICATION_MAX_DIFF := 50;
     REPLICATION_RECHECK_INTERVAL := 60;
     FLATNODE_FILE := "";
     get_libpq_dsn := "dbname=nominatim";
     get_import_style_file := "import-extratags.style" |}.

Definition update_args (cfg : Config) (once_ do_index_ : bool) : Args :=
  {| config := cfg;
     project_dir := ["/"; "srv"; "nominatim"]%string;
     data_dir := "/usr/share/nominatim";
     osm2pgsql_path := "/usr/bin/osm2pgsql";
     osm2pgsql_cache := None;
     threads := Some 4;
     init := false;
     update_functions := true;
     check_for_updates := false;
     once := once_;
     do_index := do_index_;
     socket_timeout := 60 |}.

Definition mirror_config : Config :=
  {| REPLICATION_URL :=
       "https://mirror.example.org/download.geofabrik.de/europe-updates";
     REPLICATION_UPDATE_INTERVAL := 3600;
     REPLICATION_MAX_DIFF := 50;
     REPLICATION_RECHECK_INTERVAL := 60;
     FLATNODE_FILE := "";
     get_libpq_dsn := "dbname=nominatim";
     get_import_style_file := "import-extratags.style" |}.

Definition negative_recheck_config : Config :=
  {| REPLICATION_URL := "https://planet.openstreetmap.org/replication/minute";
     REPLICATION_UPDATE_INTERVAL := 75;
     REPLICATION_MAX_DIFF := 50;
     REPLICATION_RECHECK_INTERVAL := -5;
     FLATNODE_FILE := "";
     get_libpq_dsn := "dbname=nominatim";
     get_import_style_file := "import-extratags.style" |}.

(** A store whose apply call always returns [outcome]; the clock
    advances by one second per call, from [t0]; no sleep is refused. *)
Definition steady_env (outcome : UpdateState) (t0 : Dt.datetime) : Env :=
  {| clock := fun h => t0 + Dt.of_seconds (Z.of_nat (List.length h));
     update_outcome := fun _ _ _ => outcome;
     status_row := fun _ _ => (t0 - Dt.of_seconds 100, false, 4711);
     updates_available := fun _ _ _ => 0;
     log_enabled := fun _ _ => true;
     sleep_refused := fun _ _ => false |}.

Definition exit_value (state : UpdateState) : Z :=
  match state with
  | NO_CHANGES => 3
  | CHANGED => 0
  end.

(** * Properties *)

(** ** [in] on strings is the substring test *)

Lemma prefix_append (n post : string) :
  String.prefix n (n ++ post)%string = true.
Proof.
  induction n as [|a n IH]; cbn.
  - destruct post; reflexivity.
  - destruct (ascii_dec a a); [assumption | contradiction].
Qed.

Lemma prefix_inv (n h : string) :
  String.prefix n h = true -> exists post, h = (n ++ post)%string.
Proof.
  revert h. induction n as [|a n IH]; intros h Hp.
  - exists h. reflexivity.
  - destruct h as [|b h]; cbn in Hp; [discriminate|].
    destruct (ascii_dec a b) as [<-|]; [|discriminate].
    destruct (IH h Hp) as (post & ->). exists post. reflexivity.
Qed.

Lemma contains_spec (needle haystack : string) :
  Py.contains needle haystack = true <->
  exists pre post, haystack = (pre ++ needle ++ post)%string.
Proof.
  split.
  - induction haystack as [|c rest IH]; cbn [Py.contains]; intros Hc;
      apply orb_true_iff in Hc; destruct Hc as [Hp | Hc]; try discriminate.
    + destruct (prefix_inv _ _ Hp) as (post & E).
      exists EmptyString, post. exact E.
    + destruct (prefix_inv _ _ Hp) as (post & E).
      exists EmptyString, post. exact E.
    + destruct (IH Hc) as (pre & post & ->).
      exists (String c pre), post. reflexivity.
  - intros (pre & post & ->). induction pre as [|c pre IH].
    + cbn [append]. destruct (needle ++ post)%string eqn:E; cbn [Py.contains];
        rewrite <- E, prefix_append; reflexivity.
    + cbn [append Py.contains]. rewrite IH. apply orb_true_r.
Qed.

(** ** Running the monad one call at a time *)

Lemma skipn_length_app {A} (l1 l2 : list A) :
  skipn (List.length l1) (l1 ++ l2) = l2.
Proof. induction l1; simpl; auto. Qed.

Section Exec.
Variable env : Env.
Context {A B C : Type}.

Lemma bind_ret (a : A) (k : A -> M B) h : bind (ret a) k h = k a h.
Proof. reflexivity. Qed.

Lemma bind_raise (e : Exn) (k : A -> M B) h :
  bind (raise e) k h = Raised e h.
Proof. reflexivity. Qed.

Lemma bind_bind (m : M A) (f : A -> M B) (g : B -> M C) h :
  bind (bind m f) g h = bind m (fun a => bind (f a) g) h.
Proof. unfold bind. destruct (m h); reflexivity. Qed.

Lemma bind_emit (e : Event) (k : unit -> M B) h :
  bind (emit e) k h = k tt (h ++ [e]).
Proof. reflexivity. Qed.

Lemma bind_connect dsn (k : Conn -> M B) h :
  bind (connect dsn) k h = k (fresh_conn h) (h ++ [Connect dsn (fresh_conn h)]).
Proof. reflexivity. Qed.

Lemma bind_now (k : Dt.datetime -> M B) h :
  bind (dt_datetime_now env) k h =
  k (clock env h) (h ++ [DatetimeNow (clock env h)]).
Proof. reflexivity. Qed.

Lemma bind_update conn params (k : UpdateState -> M B) h :
  bind (replication_update env conn params) k h =
  k (update_outcome env h conn params)
    (h ++ [ReplicationUpdate conn params (update_outcome env h conn params)]).
Proof. reflexivity. Qed.

Lemma bind_get_status conn (k : StatusRow -> M B) h :
  bind (status_get_status env conn) k h =
  k (status_row env h conn) (h ++ [GetStatus conn (status_row env h conn)]).
Proof. reflexivity. Qed.

Lemma bind_isEnabledFor level (k : bool -> M B) h :
  bind (LOG_isEnabledFor env level) k h = k (log_enabled env h level) h.
Proof. reflexivity. Qed.

Lemma bind_sleep secs (k : unit -> M B) h :
  bind (time_sleep env secs) k h =
  match sleep_failure env h secs with
  | Some e => Raised e (h ++ [Sleep secs])
  | None => k tt (h ++ [Sleep secs])
  end.
Proof.
  unfold bind, time_sleep. destruct (sleep_failure env h secs); reflexivity.
Qed.

Lemma bind_setdefaulttimeout secs (k : unit -> M B) h :
  bind (socket_setdefaulttimeout secs) k h =
  match seconds_error secs with
  | Some e => Raised e (h ++ [SetDefaultTimeout secs])
  | None => k tt (h ++ [SetDefaultTimeout secs])
  end.
Proof.
  unfold bind, socket_setdefaulttimeout, emit, raise, ret.
  destruct (seconds_error secs); reflexivity.
Qed.
End Exec.

Ltac norm_hist := repeat rewrite <- app_assoc; cbn [app].

Ltac step :=
  first [ rewrite bind_bind | rewrite bind_ret | rewrite bind_raise
        | rewrite bind_emit | rewrite bind_connect | rewrite bind_now
        | rewrite bind_update | rewrite bind_get_status
        | rewrite bind_isEnabledFor | rewrite bind_sleep ];
  cbv beta; norm_hist.

Ltac finish :=
  cbn [local]; repeat step;
  try match goal with
      | |- context [sleep_failure ?env ?h ?secs] =>
          destruct (sleep_failure env h secs)
      end;
  unfold emit, ret, raise, bind; norm_hist;
  (split; [reflexivity | cbn [history_of]; apply skipn_length_app]).

Ltac given := first [ reflexivity | assumption ].

(** ** One iteration of the loop, call by call *)

Section Iteration.
Variable env : Env.
Variable args : Args.
Variable params : Params.
Variable rc : option Z.

Let dsn := get_libpq_dsn (config args).
Let indexer :=
  {| indexer_dsn := dsn; indexer_threads := Py.or_default (threads args) 1 |}.

Lemma update_iteration_run (h : History) :
  exists conn start state row index_start index_events report_events,
    conn = fresh_conn h /\
    start = clock env (h ++ [Connect dsn conn]) /\
    state = update_outcome env (h ++ [Connect dsn conn; DatetimeNow start])
              conn params /\
    let apply_events :=
      [Connect dsn conn; DatetimeNow start; ReplicationUpdate conn params state]
      ++ (if is_not_NO_CHANGES state then [LogStatus conn start "import"] else [])
      ++ [GetStatus conn row; ConnClose conn] in
    let h1 := h ++ apply_events in
    let h2 := h1 ++ index_events in
    let h3 := h2 ++ report_events in
    ((is_not_NO_CHANGES state && do_index args = true /\
      exists t conn2,
        t = clock env h1 /\
        conn2 = fresh_conn (h1 ++ [DatetimeNow t; IndexerInit indexer;
                                   IndexBoundaries indexer 0 30;
                                   IndexByRank indexer 0 30]) /\
        index_start = Some t /\
        index_events = [DatetimeNow t; IndexerInit indexer;
                        IndexBoundaries indexer 0 30; IndexByRank indexer 0 30;
                        Connect dsn conn2; SetIndexed conn2 true;
                        LogStatus conn2 t "index"; ConnClose conn2])
     \/ (is_not_NO_CHANGES state && do_index args = false /\
         index_start = None /\ index_events = [])) /\
    ((log_enabled env h2 WARNING = true /\
      report_events =
        [DatetimeNow (clock env h2);
         Log WARNING (report_message
                        (report_of (fst (fst row)) start index_start (clock env h2)))])
     \/ (log_enabled env h2 WARNING = false /\ report_events = [])) /\
    update_iteration env args params rc h =
      (if once args then Ok (Break, state) h3
      else if is_NO_CHANGES state then
        match rc with
        | Some secs =>
            match sleep_failure env
                    (h3 ++ [Log WARNING (sleeping_message secs)]) secs with
            | Some e =>
                Raised e
                  (h3 ++ [Log WARNING (sleeping_message secs); Sleep secs])
            | None =>
                Ok (Continue, state)
                   (h3 ++ [Log WARNING (sleeping_message secs); Sleep secs])
            end
        | None => Raised (UnboundLocalError "recheck_interval") h3
        end
      else Ok (Continue, state) h3) /\
    events_of (update_iteration env args params rc) h =
      apply_events ++ index_events ++ report_events
      ++ (if once args then []
          else if is_NO_CHANGES state then
            match rc with
            | Some secs => [Log WARNING (sleeping_message secs); Sleep secs]
            | None => []
            end
          else []).
Proof.
  unfold events_of, update_iteration.
  unfold _report_update, new_Indexer.
  unfold conn_close, status_log_status, status_set_indexed, index_boundaries,
    index_by_rank, LOG_warning.
  fold dsn. fold indexer.
  step. remember (fresh_conn h) as conn eqn:Hconn.
  step. remember (clock env _) as start eqn:Hstart.
  step. remember (update_outcome env _ _ _) as state eqn:Hstate.
  destruct state; cbn [is_not_NO_CHANGES is_NO_CHANGES andb].
  - do 2 step. remember (status_row env _ _) as row eqn:Hrow.
    do 3 step.
    destruct (log_enabled env (h ++ _ :: _) WARNING) eqn:Hlog.
    + do 3 step. remember (clock env (h ++ _ :: _ :: _)) as end_ eqn:Hend.
      exists conn, start, NO_CHANGES, row, None, [],
        [DatetimeNow end_;
         Log WARNING (report_message (report_of (fst (fst row)) start None end_))].
      do 3 (split; [given|]).
      cbn zeta. cbn [is_not_NO_CHANGES is_NO_CHANGES andb app]. norm_hist.
      rewrite <- Hend.
      split; [right; auto|]. split; [left; auto|].
      destruct (once args); [finish|]. destruct rc; finish.
    + step.
      exists conn, start, NO_CHANGES, row, None, [], [].
      do 3 (split; [given|]).
      cbn zeta. cbn [is_not_NO_CHANGES is_NO_CHANGES andb app]. norm_hist.
      split; [right; auto|]. split; [right; auto|].
      destruct (once args); [finish|]. destruct rc; finish.
  - do 2 step. remember (status_row env _ _) as row eqn:Hrow.
    step.
    destruct (do_index args) eqn:Hix.
    + do 2 step. remember (clock env (h ++ _ :: _ :: _)) as t eqn:Ht.
      repeat step. remember (fresh_conn (_ ++ _)) as conn2 eqn:Hconn2.
      destruct (log_enabled env (h ++ _ :: _) WARNING) eqn:Hlog.
      * do 3 step.
        remember (clock env (h ++ _ :: _ :: _ :: _ :: _ :: _ :: _ :: _)) as end_ eqn:Hend.
        exists conn, start, CHANGED, row, (Some t),
          [DatetimeNow t; IndexerInit indexer;
           IndexBoundaries indexer 0 30; IndexByRank indexer 0 30;
           Connect dsn conn2; SetIndexed conn2 true;
           LogStatus conn2 t "index"; ConnClose conn2],
          [DatetimeNow end_;
           Log WARNING (report_message (report_of (fst (fst row)) start (Some t) end_))].
        do 3 (split; [given|]).
        cbn zeta. cbn [is_not_NO_CHANGES is_NO_CHANGES andb app]. norm_hist.
        rewrite <- Hend.
        split; [left; split; [reflexivity|]; exists t, conn2; norm_hist;
                repeat split; given|].
        split; [left; auto|].
        destruct (once args); finish.
      * step.
        exists conn, start, CHANGED, row, (Some t),
          [DatetimeNow t; IndexerInit indexer;
           IndexBoundaries indexer 0 30; IndexByRank indexer 0 30;
           Connect dsn conn2; SetIndexed conn2 true;
           LogStatus conn2 t "index"; ConnClose conn2], [].
        do 3 (split; [given|]).
        cbn zeta. cbn [is_not_NO_CHANGES is_NO_CHANGES andb app]. norm_hist.
        split; [left; split; [reflexivity|]; exists t, conn2; norm_hist;
                repeat split; given|].
        split; [right; auto|].
        destruct (once args); finish.
    + do 2 step.
      destruct (log_enabled env (h ++ _ :: _) WARNING) eqn:Hlog.
      * do 3 step. remember (clock env (h ++ _ :: _ :: _)) as end_ eqn:Hend.
        exists conn, start, CHANGED, row, None, [],
          [DatetimeNow end_;
           Log WARNING (report_message (report_of (fst (fst row)) start None end_))].
        do 3 (split; [given|]).
        cbn zeta. cbn [is_not_NO_CHANGES is_NO_CHANGES andb app]. norm_hist.
        rewrite <- Hend.
        split; [right; auto|]. split; [left; auto|].
        destruct (once args); finish.
      * step.
        exists conn, start, CHANGED, row, None, [], [].
        do 3 (split; [given|]).
        cbn zeta. cbn [is_not_NO_CHANGES is_NO_CHANGES andb app]. norm_hist.
        split; [right; auto|]. split; [right; auto|].
        destruct (once args); finish.
Qed.
End Iteration.

Ltac iteration_cases env args params rc h :=
  let conn := fresh "conn" in
  let start := fresh "start" in
  let state := fresh "state" in
  let row := fresh "row" in
  destruct (update_iteration_run env args params rc h)
    as (conn & start & state & row & ? & ? & ?
        & Hconn & Hstart & Hstate & Hix & Hrep & Hrun & Hev);
  cbn zeta in Hix, Hrep, Hrun, Hev;
  destruct Hix as [(Hc & t & conn2 & Ht & Hconn2 & -> & ->) | (Hc & -> & ->)];
  destruct Hrep as [(Hlog & ->) | (Hlog & ->)].

Ltac absurd_in :=
  cbn [In app filter is_indexing is_sleep is_apply is_NO_CHANGES
         is_not_NO_CHANGES andb] in *;
  intuition (try discriminate; try congruence).

Lemma while_true_continue {T} (body : M (Flow * T)) fuel h s h' :
  body h = Ok (Continue, s) h' ->
  while_true (S fuel) body h = while_true fuel body h'.
Proof. intros E. cbn [while_true]. unfold bind. rewrite E. reflexivity. Qed.

Lemma while_true_break {T} (body : M (Flow * T)) fuel h s h' :
  body h = Ok (Break, s) h' ->
  while_true (S fuel) body h = Ok (Some s) h'.
Proof. intros E. cbn [while_true]. unfold bind. rewrite E. reflexivity. Qed.

Lemma max_seconds_value : max_seconds = 9223372036.
Proof. vm_compute. reflexivity. Qed.

Lemma seconds_error_none secs :
  seconds_error secs = None <-> 0 <= secs <= max_seconds.
Proof.
  unfold seconds_error.
  destruct (Z.ltb_spec max_seconds (Z.abs secs));
    destruct (Z.ltb_spec secs 0);
    split; intros E; try discriminate E; try reflexivity; lia.
Qed.

Lemma sleep_failure_none env h secs :
  0 <= secs <= max_seconds ->
  sleep_refused env h secs = false ->
  sleep_failure env h secs = None.
Proof.
  intros Hrange Hos. unfold sleep_failure.
  rewrite (proj2 (seconds_error_none secs) Hrange), Hos. reflexivity.
Qed.


(** ** The claims *)

(** C7: in every iteration, whatever [replication.update] returned, the
    status is read back from the store on the same connection, after the
    apply call (and after the import log entry this call may have caused),
    once and before the connection is closed. *)
Theorem status_read_back_every_iteration env args params rc h :
  exists conn start state row rest,
    events_of (update_iteration env args params rc) h =
      [Connect (get_libpq_dsn (config args)) conn; DatetimeNow start;
       ReplicationUpdate conn params state]
      ++ (if is_not_NO_CHANGES state then [LogStatus conn start "import"] else [])
      ++ [GetStatus conn row; ConnClose conn] ++ rest
    /\ (forall c r, ~ In (GetStatus c r) rest).
Proof.
  iteration_cases env args params rc h;
    exists conn, start, state, row; eexists;
    (split; [rewrite Hev; repeat rewrite <- app_assoc; reflexivity|]);
    intros c r; destruct (once args), state, rc; absurd_in.
Qed.


(** C2: an iteration whose apply call returned [CHANGED], with indexing
    enabled, makes exactly these calls, in this order: the "import" log
    entry carries the time read just before the apply call, the
    boundaries are indexed before the ranked phase starts, the indexed
    flag is set, the "index" log entry carries the time read when
    indexing started; nothing sleeps, and in continuous mode the next
    iteration starts from the history this one leaves. *)
Theorem changed_iteration_with_indexing env args params rc h conn p :
  In (ReplicationUpdate conn p CHANGED)
     (events_of (update_iteration env args params rc) h) ->
  do_index args = true ->
  exists start row index_start conn2 report,
    let dsn := get_libpq_dsn (config args) in
    let indexer :=
      {| indexer_dsn := dsn;
         indexer_threads := Py.or_default (threads args) 1 |} in
    events_of (update_iteration env args params rc) h =
      [Connect dsn conn; DatetimeNow start;
       ReplicationUpdate conn params CHANGED;
       LogStatus conn start "import"; GetStatus conn row; ConnClose conn;
       DatetimeNow index_start; IndexerInit indexer;
       IndexBoundaries indexer 0 30; IndexByRank indexer 0 30;
       Connect dsn conn2; SetIndexed conn2 true;
       LogStatus conn2 index_start "index"; ConnClose conn2] ++ report /\
    start = clock env (h ++ [Connect dsn conn]) /\
    Forall (fun e => match e with
                     | DatetimeNow _ | Log WARNING _ => True
                     | _ => False
                     end) report /\
    (forall secs,
        ~ In (Sleep secs) (events_of (update_iteration env args params rc) h)) /\
    (once args = false ->
     forall fuel,
       while_true (S fuel) (update_iteration env args params rc) h =
       while_true fuel (update_iteration env args params rc)
         (h ++ events_of (update_iteration env args params rc) h)).
Proof.
  intros Hin Hdo.
  iteration_cases env args params rc h; rewrite Hev in *; clear Hev;
    rewrite Hdo in Hc; destruct state;
    try (cbn [is_not_NO_CHANGES andb] in Hc; discriminate Hc);
    try (exfalso; destruct (once args), rc; absurd_in; fail).
  all: assert (conn = conn0) as <-
      by (destruct (once args); absurd_in).
  all: exists start, row, t, conn2; eexists; cbn zeta.
  all: split; [cbn [is_not_NO_CHANGES is_NO_CHANGES app];
               destruct (once args); cbn [app]; reflexivity|].
  all: split; [assumption|].
  all: split; [destruct (once args); repeat constructor|].
  all: split; [intros secs; destruct (once args); absurd_in|].
  all: intros Honce fuel; rewrite Honce in Hrun;
    cbn [is_NO_CHANGES] in Hrun;
    erewrite while_true_continue by exact Hrun;
    rewrite Honce; cbn [is_NO_CHANGES is_not_NO_CHANGES];
    repeat rewrite app_assoc; repeat rewrite app_nil_r; reflexivity.
Qed.

Lemma update_passes_checks env value fuel args h :
  Py.contains geofabrik_host (REPLICATION_URL (config args))
  && (REPLICATION_UPDATE_INTERVAL (config args) <? 86400) = false ->
  (once args = false -> do_index args = true) ->
  _update env value fuel args h =
    (state <- while_true fuel
                (update_iteration env args (update_params args)
                   (if once args then None
                    else Some (REPLICATION_RECHECK_INTERVAL (config args)))) ;;
     ret (option_map value state)) h.
Proof.
  intros Hok Hix. unfold _update, check_update_interval, check_continuous.
  cbn [base_url update_interval update_params]. rewrite Hok. step.
  destruct (once args); cbn [negb].
  - step. reflexivity.
  - rewrite Hix by reflexivity. cbn [negb]. repeat step. reflexivity.
Qed.

(** C5: under [--once], whatever the apply call returns, [_update] runs
    the body of the loop exactly once and returns: it makes one apply
    call, writes the import log entry when that call returned a state
    other than [NO_CHANGES], reads the status back, runs both indexing
    phases and the status writes after them when moreover indexing is
    enabled, reports, and returns the [.value] of the state the apply
    call returned, having made no other call.  [run], which first sets
    the socket timeout, hands this result on as the exit code. *)
Theorem single_run_terminates env value args fuel h :
  once args = true ->
  Py.contains geofabrik_host (REPLICATION_URL (config args))
  && (REPLICATION_UPDATE_INTERVAL (config args) <? 86400) = false ->
  exists conn start state row index_events report_events,
    let dsn := get_libpq_dsn (config args) in
    let indexer :=
      {| indexer_dsn := dsn;
         indexer_threads := Py.or_default (threads args) 1 |} in
    state = update_outcome env (h ++ [Connect dsn conn; DatetimeNow start])
              conn (update_params args) /\
    _update env value (S fuel) args h =
      Ok (Some (value state))
         (h ++ [Connect dsn conn; DatetimeNow start;
                ReplicationUpdate conn (update_params args) state]
            ++ (if is_not_NO_CHANGES state
                then [LogStatus conn start "import"] else [])
            ++ [GetStatus conn row; ConnClose conn]
            ++ index_events ++ report_events) /\
    (if is_not_NO_CHANGES state && do_index args
     then exists t conn2,
         index_events =
           [DatetimeNow t; IndexerInit indexer;
            IndexBoundaries indexer 0 30; IndexByRank indexer 0 30;
            Connect dsn conn2; SetIndexed conn2 true;
            LogStatus conn2 t "index"; ConnClose conn2]
     else index_events = []) /\
    Forall (fun e => match e with
                     | DatetimeNow _ | Log WARNING _ => True
                     | _ => False
                     end) report_events /\
    (forall h0,
        init args = false -> check_for_updates args = false ->
        0 <= socket_timeout args <= max_seconds ->
        run env value (S fuel) args h0 =
        _update env value (S fuel) args
          (h0 ++ [SetDefaultTimeout (socket_timeout args)])).
Proof.
  intros Honce Hok.
  rewrite update_passes_checks by (auto; rewrite Honce; discriminate).
  rewrite Honce.
  iteration_cases env args (update_params args) (@None Z) h;
    clear Hev; rewrite Honce in Hrun;
    exists conn, start, state, row;
    match type of Hrun with
    | _ = Ok _ ((_ ++ ?IX) ++ ?REP) => exists IX, REP
    end;
    cbn zeta;
    (split; [exact Hstate|]);
    (split; [unfold bind; erewrite while_true_break by exact Hrun;
             cbn [option_map ret]; repeat rewrite <- app_assoc;
             reflexivity|]);
    rewrite Hc;
    (split; [first [reflexivity | exists t, conn2; reflexivity]|]);
    (split; [repeat constructor|]);
    intros h0 Hinit Hcheck Hrange; unfold run;
    rewrite bind_setdefaulttimeout, (proj2 (seconds_error_none _) Hrange),
      Hinit, Hcheck; reflexivity.
Qed.

(** ** How an iteration, the loop and [_update] may end *)

Lemma sleep_failure_exn env h secs e :
  sleep_failure env h secs = Some e ->
  e = ValueError \/ e = OverflowError \/ e = OSError.
Proof.
  unfold sleep_failure, seconds_error.
  destruct (max_seconds <? Z.abs secs); [|destruct (secs <? 0)];
    [| |destruct (sleep_refused env h secs)];
    intros E; inversion E; auto.
Qed.

(** An iteration makes one apply call.  It returns, unless it goes to
    sleep and [time.sleep] raises: once [recheck_interval] is bound
    wherever the loop may read it, nothing else ends it. *)
Lemma update_iteration_outcome env args params rc h :
  (once args = false -> exists secs, rc = Some secs) ->
  exists conn state,
    filter is_apply (events_of (update_iteration env args params rc) h) =
      [ReplicationUpdate conn params state] /\
    (((once args = true \/ state = CHANGED) /\
      update_iteration env args params rc h =
        Ok (if once args then Break else Continue, state)
           (h ++ events_of (update_iteration env args params rc) h))
     \/ (once args = false /\ state = NO_CHANGES /\
         exists secs pre,
           rc = Some secs /\
           events_of (update_iteration env args params rc) h =
             pre ++ [Sleep secs] /\
           update_iteration env args params rc h =
             match sleep_failure env (h ++ pre) secs with
             | Some e =>
                 Raised e (h ++ events_of (update_iteration env args params rc) h)
             | None =>
                 Ok (Continue, state)
                    (h ++ events_of (update_iteration env args params rc) h)
             end)).
Proof.
  intros Hrc.
  iteration_cases env args params rc h; rewrite Hev, Hrun; clear Hev Hrun;
    exists conn, state;
    (destruct (once args);
     [|destruct Hrc as (secs & ->); [reflexivity|]]);
    destruct state;
    cbn [is_not_NO_CHANGES is_NO_CHANGES andb app filter is_apply] in *;
    try discriminate Hc;
    (split; [repeat rewrite <- app_assoc; cbn [app]; reflexivity|]);
    try (left; split; [auto|];
         repeat rewrite <- app_assoc; cbn [app]; reflexivity).
  all: right; split; [reflexivity|]; split; [reflexivity|];
    exists secs;
    match goal with
    | |- exists pre, _ /\ ?L = _ /\ _ => exists (removelast L)
    end;
    cbn [removelast app];
    (split; [reflexivity|]); (split; [reflexivity|]);
    repeat rewrite <- app_assoc; cbn [app]; reflexivity.
Qed.

Lemma while_true_raises env args params rc fuel :
  (once args = false -> exists secs, rc = Some secs) ->
  forall h e h',
    while_true fuel (update_iteration env args params rc) h = Raised e h' ->
    once args = false /\
    exists secs pre,
      rc = Some secs /\ h' = h ++ pre ++ [Sleep secs] /\
      sleep_failure env (h ++ pre) secs = Some e.
Proof.
  intros Hrc. induction fuel as [|fuel IH]; intros h e h' E.
  - discriminate E.
  - destruct (update_iteration_outcome env args params rc h Hrc)
      as (conn & state & _ & [(_ & Hok) | (Honce & _ & secs & pre & -> & Hev & Hrun)]).
    + destruct (once args).
      * erewrite while_true_break in E by exact Hok. discriminate E.
      * erewrite while_true_continue in E by exact Hok.
        destruct (IH _ _ _ E) as (Honce & secs & pre & -> & -> & Hfail).
        split; [assumption|].
        exists secs,
          (events_of (update_iteration env args params (Some secs)) h ++ pre).
        repeat rewrite <- app_assoc. rewrite <- app_assoc in Hfail. auto.
    + split; [assumption|]. rewrite Hev in Hrun.
      destruct (sleep_failure env (h ++ pre) secs) as [e0|] eqn:Hfail.
      * cbn [while_true] in E. unfold bind in E. rewrite Hrun in E.
        inversion E; subst. exists secs, pre. auto.
      * erewrite while_true_continue in E by exact Hrun.
        destruct (IH _ _ _ E) as (_ & secs' & pre' & Hs & -> & Hfail').
        inversion Hs; subst secs'.
        exists secs, ((pre ++ [Sleep secs]) ++ pre').
        repeat rewrite <- app_assoc.
        repeat rewrite <- app_assoc in Hfail'. auto.
Qed.

(** [_update] ends with an exception in three ways only: the two usage
    errors of its checks, and what [time.sleep] raises. *)
Lemma update_raises env value fuel args h e h' :
  _update env value fuel args h = Raised e h' ->
  (Py.contains geofabrik_host (REPLICATION_URL (config args))
   && (REPLICATION_UPDATE_INTERVAL (config args) <? 86400) = true /\
   e = invalid_interval /\
   h' = h ++ [Log FATAL interval_too_low_message]) \/
  (Py.contains geofabrik_host (REPLICATION_URL (config args))
   && (REPLICATION_UPDATE_INTERVAL (config args) <? 86400) = false /\
   once args = false /\ do_index args = false /\
   e = bad_no_index /\
   h' = h ++ [Log FATAL "Indexing cannot be disabled when running updates continuously."]) \/
  (Py.contains geofabrik_host (REPLICATION_URL (config args))
   && (REPLICATION_UPDATE_INTERVAL (config args) <? 86400) = false /\
   once args = false /\ do_index args = true /\
   exists pre,
     h' = h ++ pre ++ [Sleep (REPLICATION_RECHECK_INTERVAL (config args))] /\
     sleep_failure env (h ++ pre) (REPLICATION_RECHECK_INTERVAL (config args)) =
       Some e).
Proof.
  destruct (Py.contains geofabrik_host (REPLICATION_URL (config args))
            && (REPLICATION_UPDATE_INTERVAL (config args) <? 86400)) eqn:Hlow.
  - unfold _update, check_update_interval, LOG_fatal.
    cbn [base_url update_interval update_params]. rewrite Hlow.
    repeat step. unfold raise. intros E. inversion E. auto.
  - destruct (once args) eqn:Honce; [|destruct (do_index args) eqn:Hix].
    + rewrite update_passes_checks by (auto; rewrite Honce; discriminate).
      rewrite Honce. unfold bind.
      destruct (while_true _ _ _) as [r h1|e1 h1] eqn:Hloop;
        [discriminate|].
      apply while_true_raises in Hloop; [|rewrite Honce; discriminate].
      destruct Hloop as (Hcontra & _). congruence.
    + rewrite update_passes_checks by auto.
      rewrite Honce. unfold bind.
      destruct (while_true _ _ _) as [r h1|e1 h1] eqn:Hloop;
        [discriminate|].
      apply while_true_raises in Hloop; [|eauto].
      destruct Hloop as (_ & secs & pre & Hs & -> & Hfail).
      inversion Hs; subst secs.
      intros E. inversion E; subst. right; right. eauto 10.
    + unfold _update, check_update_interval, check_continuous, LOG_fatal.
      cbn [base_url update_interval update_params].
      rewrite Hlow, Honce, Hix. cbn [negb]. repeat step.
      unfold raise. intros E. inversion E. right; left. auto 10.
Qed.

Lemma update_no_usage_error env value fuel args h msg h' :
  Py.contains geofabrik_host (REPLICATION_URL (config args))
  && (REPLICATION_UPDATE_INTERVAL (config args) <? 86400) = false ->
  (once args = false -> do_index args = true) ->
  _update env value fuel args h <> Raised (UsageError msg) h'.
Proof.
  intros Hok Hix E. apply update_raises in E.
  destruct E as [(Hlow & _) | [(_ & Honce & Hno & _) | (_ & _ & _ & pre & _ & Hfail)]].
  - congruence.
  - rewrite Hix in Hno by assumption. discriminate Hno.
  - apply sleep_failure_exn in Hfail.
    destruct Hfail as [Hf | [Hf | Hf]]; discriminate Hf.
Qed.

(** C3, as the code has it: when the string download.geofabrik.de occurs
    in the replication URL, wherever in it, and the update interval is
    below 86400 seconds, [_update] logs a fatal message and raises the
    usage error, having made no other call; with an interval of at
    least 86400, or with a URL in which the string does not occur, the
    check passes silently and [_update] never raises this error. *)
Theorem rate_limit_guard env value args fuel h :
  ((exists pre post,
       REPLICATION_URL (config args) =
       (pre ++ "download.geofabrik.de" ++ post)%string) ->
   REPLICATION_UPDATE_INTERVAL (config args) < 86400 ->
   _update env value fuel args h =
     Raised (UsageError "Invalid replication update interval setting.")
            (h ++ [Log FATAL interval_too_low_message])) /\
  (86400 <= REPLICATION_UPDATE_INTERVAL (config args) \/
   ~ (exists pre post,
         REPLICATION_URL (config args) =
         (pre ++ "download.geofabrik.de" ++ post)%string) ->
   check_update_interval (update_params args) h = Ok tt h /\
   forall h',
     _update env value fuel args h <>
     Raised (UsageError "Invalid replication update interval setting.") h').
Proof.
  rewrite <- (contains_spec "download.geofabrik.de"). fold geofabrik_host.
  split.
  - intros Hhost Hlow.
    unfold _update, check_update_interval, LOG_fatal, invalid_interval.
    cbn [base_url update_interval update_params].
    rewrite Hhost. apply Z.ltb_lt in Hlow. rewrite Hlow. cbn [andb].
    repeat step. reflexivity.
  - intros Hpass.
    assert (Py.contains geofabrik_host (REPLICATION_URL (config args))
            && (REPLICATION_UPDATE_INTERVAL (config args) <? 86400) = false)
      as Hok.
    { destruct Hpass as [Hge | Hno].
      - apply Z.ltb_ge in Hge. rewrite Hge. apply andb_false_r.
      - apply not_true_is_false in Hno. rewrite Hno. reflexivity. }
    split.
    + unfold check_update_interval.
      cbn [base_url update_interval update_params]. rewrite Hok. reflexivity.
    + intros h' E. apply update_raises in E.
      destruct E as [(Hlow & _) | [(_ & _ & _ & He & _)
                                  | (_ & _ & _ & pre & _ & Hfail)]].
      * congruence.
      * discriminate He.
      * apply sleep_failure_exn in Hfail.
        destruct Hfail as [Hf | [Hf | Hf]]; discriminate Hf.
Qed.

(** The check does not go by the host that the URL names: the URL of a
    mirror on another host, with download.geofabrik.de in its path, is
    refused with an interval of one hour. *)
Lemma rate_limit_guard_is_not_by_host :
  ~ (forall args h,
        spec_url_host (REPLICATION_URL (config args)) <> geofabrik_host ->
        check_update_interval (update_params args) h = Ok tt h).
Proof.
  intros H. specialize (H (update_args mirror_config true true) []).
  assert (spec_url_host
            (REPLICATION_URL (config (update_args mirror_config true true)))
          = "mirror.example.org"%string) as Hhost
    by (vm_compute; reflexivity).
  rewrite Hhost in H.
  assert (check_update_interval
            (update_params (update_args mirror_config true true)) [] =
          Raised invalid_interval [Log FATAL interval_too_low_message]) as E
    by (vm_compute; reflexivity).
  rewrite E in H. discriminate H. discriminate.
Qed.

(** C4: continuous mode with [--no-index] fails with a usage error after
    one fatal log message and no other call; continuous mode with
    indexing, and [--once] with or without indexing, pass this check,
    and [_update] then never raises this error. *)
Theorem continuous_without_indexing_guard env value args fuel h :
  (once args = false -> do_index args = false ->
   check_continuous args h =
     Raised (UsageError "Bad argument '--no-index'.")
       (h ++ [Log FATAL "Indexing cannot be disabled when running updates continuously."]) /\
   exists msg text,
     _update env value fuel args h = Raised (UsageError msg) (h ++ [Log FATAL text])) /\
  (once args = false -> do_index args = true ->
   check_continuous args h =
     Ok (Some (REPLICATION_RECHECK_INTERVAL (config args))) h) /\
  (once args = true -> check_continuous args h = Ok None h) /\
  (once args = true \/ do_index args = true ->
   forall h',
     _update env value fuel args h <>
     Raised (UsageError "Bad argument '--no-index'.") h').
Proof.
  split; [intros Honce Hix; split|split; [|split]].
  - unfold check_continuous, LOG_fatal, bad_no_index.
    rewrite Honce, Hix. cbn [negb]. repeat step. reflexivity.
  - unfold _update, check_update_interval, check_continuous, LOG_fatal,
      bad_no_index, invalid_interval.
    destruct (_ && _); repeat step; [eauto|].
    rewrite Honce, Hix. cbn [negb]. repeat step. eauto.
  - intros Honce Hix. unfold check_continuous. rewrite Honce, Hix. reflexivity.
  - intros Honce. unfold check_continuous. rewrite Honce. reflexivity.
  - intros Hpass h'.
    destruct (Py.contains geofabrik_host (REPLICATION_URL (config args))
              && (REPLICATION_UPDATE_INTERVAL (config args) <? 86400)) eqn:Hok.
    + unfold _update, check_update_interval, LOG_fatal, invalid_interval.
      cbn [base_url update_interval update_params]. rewrite Hok.
      repeat step. discriminate.
    + apply update_no_usage_error; [assumption|].
      intros Honce. destruct Hpass as [Hp | Hp]; congruence.
Qed.

(** ** What a whole run may emit *)

Lemma emits_only_events {A} P (m : M A) h :
  emits_only P m ->
  history_of (m h) = h ++ events_of m h /\ Forall P (events_of m h).
Proof.
  intros Hm. destruct (Hm h) as (evs & E & F).
  unfold events_of. rewrite E, skipn_length_app. auto.
Qed.

Lemma emits_only_ret {A} P (a : A) : emits_only P (ret a).
Proof. intros h. exists []. cbn. rewrite app_nil_r. auto. Qed.

Lemma emits_only_raise {A} P e : emits_only P (@raise A e).
Proof. intros h. exists []. cbn. rewrite app_nil_r. auto. Qed.

Lemma emits_only_emit (P : Event -> Prop) e : P e -> emits_only P (emit e).
Proof. intros He h. exists [e]. cbn. auto. Qed.

Lemma emits_only_bind {A B} P (m : M A) (k : A -> M B) :
  emits_only P m -> (forall a, emits_only P (k a)) -> emits_only P (bind m k).
Proof.
  intros Hm Hk h. destruct (Hm h) as (e1 & E1 & F1). unfold bind.
  destruct (m h) as [a h1 | e h1]; cbn [history_of] in E1; subst h1.
  - destruct (Hk a (h ++ e1)) as (e2 & E2 & F2).
    exists (e1 ++ e2). rewrite E2, app_assoc. split; [reflexivity|].
    apply Forall_app; auto.
  - exists e1. auto.
Qed.

Lemma emits_only_while_true {T} P (body : M (Flow * T)) fuel :
  emits_only P body -> emits_only P (while_true fuel body).
Proof.
  intros Hb. induction fuel as [|fuel IH]; cbn [while_true].
  - apply emits_only_ret.
  - apply emits_only_bind; [assumption|].
    intros ([|] & s); cbn [fst snd]; [apply emits_only_ret | assumption].
Qed.

Section Emits.
Variable env : Env.
Variable P : Event -> Prop.

Lemma emits_only_connect dsn :
  (forall c, P (Connect dsn c)) -> emits_only P (connect dsn).
Proof. intros H h. eexists [_]. split; [reflexivity|auto]. Qed.

Lemma emits_only_now :
  (forall t, P (DatetimeNow t)) -> emits_only P (dt_datetime_now env).
Proof. intros H h. eexists [_]. split; [reflexivity|auto]. Qed.

Lemma emits_only_update conn params :
  (forall st, P (ReplicationUpdate conn params st)) ->
  emits_only P (replication_update env conn params).
Proof. intros H h. eexists [_]. split; [reflexivity|auto]. Qed.

Lemma emits_only_check_for_updates conn url :
  (forall r, P (CheckForUpdates conn url r)) ->
  emits_only P (replication_check_for_updates env conn url).
Proof. intros H h. eexists [_]. split; [reflexivity|auto]. Qed.

Lemma emits_only_get_status conn :
  (forall row, P (GetStatus conn row)) ->
  emits_only P (status_get_status env conn).
Proof. intros H h. eexists [_]. split; [reflexivity|auto]. Qed.

Lemma emits_only_isEnabledFor level :
  emits_only P (LOG_isEnabledFor env level).
Proof. intros h. exists []. cbn. rewrite app_nil_r. auto. Qed.

Lemma emits_only_sleep secs :
  P (Sleep secs) -> emits_only P (time_sleep env secs).
Proof.
  intros H h. exists [Sleep secs]. unfold time_sleep.
  destruct (sleep_failure env h secs); auto.
Qed.

Lemma emits_only_setdefaulttimeout secs :
  P (SetDefaultTimeout secs) -> emits_only P (socket_setdefaulttimeout secs).
Proof.
  intros H h. exists [SetDefaultTimeout secs].
  unfold socket_setdefaulttimeout, bind, emit, raise, ret.
  destruct (seconds_error secs); auto.
Qed.
End Emits.

(** Decompose a computation into its calls; what is left are the
    events, each to be shown in [P]. *)
Ltac emits_step :=
  lazymatch goal with
  | |- emits_only _ (ret _) => apply emits_only_ret
  | |- emits_only _ (raise _) => apply emits_only_raise
  | |- emits_only _ (LOG_isEnabledFor _ _) => apply emits_only_isEnabledFor
  | |- emits_only _ (while_true _ _) => apply emits_only_while_true
  | |- emits_only _ (bind _ _) => apply emits_only_bind; [|intro]
  | |- emits_only _ (emit _) => apply emits_only_emit
  | |- emits_only _ (connect _) => apply emits_only_connect; intro
  | |- emits_only _ (dt_datetime_now _) => apply emits_only_now; intro
  | |- emits_only _ (replication_update _ _ _) =>
      apply emits_only_update; intro
  | |- emits_only _ (replication_check_for_updates _ _ _) =>
      apply emits_only_check_for_updates; intro
  | |- emits_only _ (status_get_status _ _) =>
      apply emits_only_get_status; intro
  | |- emits_only _ (time_sleep _ _) => apply emits_only_sleep
  | |- emits_only _ (socket_setdefaulttimeout _) =>
      apply emits_only_setdefaulttimeout
  | |- emits_only _ (if ?c then _ else _) => destruct c
  | |- emits_only _ (local _ ?v) => destruct v; unfold local
  end.

Ltac emits := repeat emits_step.

Ltac unfold_calls :=
  unfold run, _update, _init_replication, _check_for_updates,
    update_iteration, check_update_interval, check_continuous,
    _report_update, new_Indexer;
  unfold conn_close, status_log_status, status_set_indexed, index_boundaries,
    index_by_rank, LOG_warning, LOG_fatal, replication_init_replication,
    refresh_create_functions.

(** C9: every call of [index_boundaries] and of [index_by_rank] in a run
    is made with the rank range 0 to 30, and an iteration that calls
    the indexing engine at all makes both calls, on the same indexer. *)
Theorem index_rank_range env value args fuel h :
  (forall e,
      In e (events_of (run env value fuel args) h) ->
      match e with
      | IndexBoundaries _ minrank maxrank
      | IndexByRank _ minrank maxrank => minrank = 0 /\ maxrank = 30
      | _ => True
      end) /\
  (forall params rc h1 e,
      In e (events_of (update_iteration env args params rc) h1) ->
      is_indexing e = true ->
      exists indexer pre post,
        events_of (update_iteration env args params rc) h1 =
          pre ++ [IndexBoundaries indexer 0 30; IndexByRank indexer 0 30]
              ++ post).
Proof.
  split.
  - apply Forall_forall. apply emits_only_events.
    unfold_calls. emits; cbn; auto.
  - intros params rc h1 e Hin He.
    iteration_cases env args params rc h1; clear Hrun;
      try (exfalso; rewrite Hev in Hin;
           destruct (once args), state, rc; absurd_in; subst e;
           discriminate).
    all: match type of Hev with
         | _ = ?A ++ (?d :: ?ii :: IndexBoundaries ?ix _ _ :: ?ibr :: ?rest)
                  ++ ?RT =>
             exists ix, (A ++ [d; ii]), (rest ++ RT)
         end;
      rewrite Hev; repeat rewrite <- app_assoc; reflexivity.
Qed.

(** C10: the [indexed_only] entry of [params] is the negation of
    [--once]: true exactly in continuous mode, false exactly in
    single-run mode; and every call of [replication.update] in a run is
    handed parameters with this value. *)
Theorem indexed_only_is_continuous_mode env value args fuel h :
  indexed_only (update_params args) = negb (once args) /\
  (indexed_only (update_params args) = true <-> once args = false) /\
  (indexed_only (update_params args) = false <-> once args = true) /\
  (forall conn p st,
      In (ReplicationUpdate conn p st) (events_of (run env value fuel args) h) ->
      indexed_only p = negb (once args)).
Proof.
  split; [reflexivity|].
  split; [cbn; destruct (once args); intuition discriminate|].
  split; [cbn; destruct (once args); intuition discriminate|].
  intros conn p st Hin.
  assert (Forall (fun e => match e with
                           | ReplicationUpdate _ p _ =>
                               indexed_only p = negb (once args)
                           | _ => True
                           end)
                 (events_of (run env value fuel args) h)) as F.
  { apply emits_only_events. unfold_calls. emits; cbn; auto. }
  rewrite Forall_forall in F. exact (F _ Hin).
Qed.

(** ** Whole seconds: [int(delta.total_seconds())]

    The quotient of a number of microseconds by [10**6] is rounded to
    the nearest double before [int] truncates it.  Below [2**34]
    seconds (some 544 years) that rounding never reaches the next whole
    second, so that the result is the quotient truncated toward zero. *)

Lemma digits2_pos_bounds p :
  2 ^ (Zpos (digits2_pos p) - 1) <= Zpos p < 2 ^ Zpos (digits2_pos p).
Proof.
  induction p as [p IH | p IH |]; cbn [digits2_pos].
  - rewrite Pos2Z.inj_succ.
    replace (Z.succ (Z.pos (digits2_pos p)) - 1) with (Z.succ (Z.pos (digits2_pos p) - 1)) by lia.
    rewrite !Z.pow_succ_r by lia. lia.
  - rewrite Pos2Z.inj_succ.
    replace (Z.succ (Z.pos (digits2_pos p)) - 1) with (Z.succ (Z.pos (digits2_pos p) - 1)) by lia.
    rewrite !Z.pow_succ_r by lia. lia.
  - cbn. lia.
Qed.

Lemma digits2_pos_unique p d :
  2 ^ (d - 1) <= Zpos p < 2 ^ d -> Zpos (digits2_pos p) = d.
Proof.
  intros [Hlo Hhi]. pose proof (digits2_pos_bounds p) as [Blo Bhi].
  assert (0 < d) as Hd.
  { destruct (Z_lt_le_dec 0 d); [assumption|].
    destruct (Z.eq_dec d 0) as [->|]; [cbn in Hhi; lia|].
    rewrite Z.pow_neg_r in Hhi by lia. lia. }
  assert (d - 1 < Zpos (digits2_pos p)).
  { apply (Z.pow_lt_mono_r_iff 2); lia. }
  assert (Zpos (digits2_pos p) - 1 < d).
  { apply (Z.pow_lt_mono_r_iff 2); lia. }
  lia.
Qed.

Lemma Zdigits2_unique m d :
  0 < m -> 2 ^ (d - 1) <= m < 2 ^ d -> Zdigits2 m = d.
Proof.
  intros Hm H. destruct m as [|p|p]; try lia.
  cbn [Zdigits2]. apply digits2_pos_unique. assumption.
Qed.

Lemma fexp_normal e : -1021 <= e -> fexp Py.prec Py.emax e = e - 53.
Proof. intros H. unfold fexp, emin, Py.prec, Py.emax. lia. Qed.

Lemma shr_fexp_53 m e l :
  2 ^ 52 <= m < 2 ^ 53 -> -1074 <= e ->
  shr_fexp Py.prec Py.emax m e l = (shr_record_of_loc m l, e).
Proof.
  intros Hm He. unfold shr_fexp.
  rewrite (Zdigits2_unique m 53) by (cbn in *; lia).
  rewrite fexp_normal by lia.
  replace (53 + e - 53 - e) with 0 by lia. reflexivity.
Qed.

Lemma shr_fexp_54 m e l :
  2 ^ 53 <= m < 2 ^ 54 -> -1075 <= e ->
  shr_fexp Py.prec Py.emax m e l = (shr_1 (shr_record_of_loc m l), e + 1).
Proof.
  intros Hm He. unfold shr_fexp.
  rewrite (Zdigits2_unique m 54) by (cbn in *; lia).
  rewrite fexp_normal by lia.
  replace (54 + e - 53 - e) with 1 by lia. reflexivity.
Qed.

Lemma loc_of_shr_record_of_loc m l :
  loc_of_shr_record (shr_record_of_loc m l) = l.
Proof. destruct l as [|[| |]]; reflexivity. Qed.

Lemma shr_m_shr_record_of_loc m l : shr_m (shr_record_of_loc m l) = m.
Proof. destruct l as [|[| |]]; reflexivity. Qed.

(** The last step of [binary_round_aux]: a mantissa of 53 bits is kept,
    one of value [2^53] loses its last bit. *)
Lemma round_aux_finish sx R e :
  2 ^ 52 <= R <= 2 ^ 53 -> -1074 <= e < -1 ->
  Py.int_of_float
    (let '(mrs'', e'') := shr_fexp Py.prec Py.emax R e loc_Exact in
     match shr_m mrs'' with
     | Z0 => S754_zero sx
     | Zpos m => if e'' <=? Py.emax - Py.prec then S754_finite sx m e''
                 else S754_infinity sx
     | Zneg _ => S754_nan
     end) = Py.with_sign sx (R / 2 ^ (- e)).
Proof.
  intros HR He.
  destruct (Z.eq_dec R (2 ^ 53)) as [-> | Hne].
  - rewrite shr_fexp_54 by (cbn; lia). cbn [shr_record_of_loc shr_1 shr_m].
    change (2 ^ 53) with (Zpos (xO (Pos.pow 2 52))) at 1.
    cbn [shr_1 shr_m].
    replace (e + 1 <=? Py.emax - Py.prec) with true
      by (symmetry; apply Z.leb_le; unfold Py.emax, Py.prec; lia).
    cbn [Py.int_of_float].
    replace (0 <=? e + 1) with false by (symmetry; apply Z.leb_gt; lia).
    replace (- e) with (Z.succ (- (e + 1))) by lia.
    rewrite Z.pow_succ_r by lia.
    change (2 ^ 53) with (2 * Z.pos (2 ^ 52)).
    rewrite Z.div_mul_cancel_l; [reflexivity | | lia].
    apply Z.pow_nonzero; lia.
  - rewrite shr_fexp_53 by lia. cbn [shr_record_of_loc shr_m].
    destruct R as [|m|m]; try (cbn in HR; lia).
    replace (e <=? Py.emax - Py.prec) with true
      by (symmetry; apply Z.leb_le; unfold Py.emax, Py.prec; lia).
    cbn [Py.int_of_float].
    replace (0 <=? e) with false by (symmetry; apply Z.leb_gt; lia).
    reflexivity.
Qed.

Lemma round_nearest_even_cases m l :
  round_nearest_even m l = m \/
  (round_nearest_even m l = m + 1 /\
   (l = loc_Inexact Gt \/ (l = loc_Inexact Eq /\ Z.even m = false))).
Proof.
  destruct l as [|[| |]]; cbn; auto.
  destruct (Z.even m); auto.
Qed.

Lemma round_aux_53 sx q e l :
  2 ^ 52 <= q < 2 ^ 53 -> -1074 <= e < -1 ->
  Py.int_of_float (binary_round_aux Py.prec Py.emax sx q e l) =
  Py.with_sign sx (round_nearest_even q l / 2 ^ (- e)).
Proof.
  intros Hq He. unfold binary_round_aux.
  rewrite shr_fexp_53 by lia.
  rewrite shr_m_shr_record_of_loc, loc_of_shr_record_of_loc.
  apply round_aux_finish; [|assumption].
  destruct (round_nearest_even_cases q l) as [-> | (-> & _)]; lia.
Qed.

Lemma round_aux_54 sx q e l :
  2 ^ 53 <= q < 2 ^ 54 -> -1075 <= e < -2 ->
  exists R,
    Py.int_of_float (binary_round_aux Py.prec Py.emax sx q e l) =
      Py.with_sign sx (R / 2 ^ (- (e + 1))) /\
    (R = q / 2 \/ (R = q / 2 + 1 /\ Z.odd q = true)).
Proof.
  intros Hq He. unfold binary_round_aux.
  rewrite shr_fexp_54 by lia.
  set (mrs := shr_1 (shr_record_of_loc q l)).
  assert (shr_m mrs = q / 2) as Hm.
  { unfold mrs. destruct q as [|[p|p|]|p]; try (cbn in Hq; lia);
      destruct l as [|[| |]]; cbn [shr_record_of_loc shr_1 shr_m].
    all: first [ rewrite Pos2Z.inj_xI | rewrite Pos2Z.inj_xO ].
    all: first [ apply Z.div_unique with (r := 1); lia
               | apply Z.div_unique with (r := 0); lia ]. }
  assert (round_nearest_even (shr_m mrs) (loc_of_shr_record mrs) = q / 2 \/
          (round_nearest_even (shr_m mrs) (loc_of_shr_record mrs) = q / 2 + 1 /\
           Z.odd q = true)) as HR.
  { rewrite Hm.
    destruct (round_nearest_even_cases (q / 2) (loc_of_shr_record mrs))
      as [-> | (-> & Hl)]; [auto|]. right. split; [reflexivity|].
    unfold mrs in Hl.
    destruct q as [|[p|p|]|p]; try (cbn in Hq; lia); [reflexivity|].
    exfalso. destruct l as [|[| |]]; cbn in Hl;
      destruct Hl as [Hl | (Hl & _)]; discriminate Hl. }
  exists (round_nearest_even (shr_m mrs) (loc_of_shr_record mrs)).
  split; [|exact HR].
  apply round_aux_finish; [|lia].
  assert (2 ^ 52 <= q / 2 < 2 ^ 53).
  { split.
    - apply Z.div_le_lower_bound; lia.
    - apply Z.div_lt_upper_bound; lia. }
  destruct HR as [-> | (-> & _)]; lia.
Qed.

Lemma new_location_million r :
  new_location 1000000 r =
  if r =? 0 then loc_Exact else loc_Inexact (2 * r ?= 1000000).
Proof. reflexivity. Qed.

Lemma divide_by_million sx p :
  Zpos p < 2 ^ 34 * 1000000 ->
  Py.int_of_float
    (SFdiv Py.prec Py.emax (S754_finite sx p 0) (S754_finite false 1000000 0)) =
  Py.with_sign sx (Zpos p / 1000000).
Proof.
  intros Hp. unfold SFdiv, SFdiv_core_binary.
  rewrite xorb_false_r.
  pose proof (digits2_pos_bounds p) as [Dlo Dhi].
  cbn [Zdigits2]. change (Z.pos (digits2_pos 1000000)) with 20.
  set (D := Zpos (digits2_pos p)) in *.
  assert (1 <= D <= 54) as HD.
  { split; [unfold D; lia|].
    destruct (Z_le_gt_dec D 54); [assumption|].
    assert (2 ^ 54 <= 2 ^ (D - 1)) by (apply Z.pow_le_mono_r; lia).
    lia. }
  rewrite fexp_normal by lia.
  replace (Z.min (D + 0 - (20 + 0) - 53) (0 - 0)) with (D - 73) by lia.
  replace (0 - 0 - (D - 73)) with (73 - D) by lia.
  assert (0 < 2 ^ (73 - D)) as HP by (apply Z.pow_pos_nonneg; lia).
  assert (2 ^ (D - 1) * 2 ^ (73 - D) = 2 ^ 72) as Hlo
    by (rewrite <- Z.pow_add_r by lia; f_equal; lia).
  assert (2 ^ D * 2 ^ (73 - D) = 2 ^ 73) as Hhi
    by (rewrite <- Z.pow_add_r by lia; f_equal; lia).
  assert (2 ^ 19 <= 2 ^ (73 - D)) as HP19 by (apply Z.pow_le_mono_r; lia).
  destruct (73 - D) as [|s|s] eqn:Hs; try lia.
  rewrite Z.shiftl_mul_pow2 by lia. rewrite <- Hs in *.
  set (P := 2 ^ (73 - D)) in *.
  pose proof (Z_div_mod (Z.pos p * P) 1000000 eq_refl) as Hdiv.
  destruct (Z.div_eucl (Z.pos p * P) 1000000) as [q r].
  destruct Hdiv as [Hqr Hr].
  rewrite new_location_million.
  pose proof (Z_div_mod_eq_full (Z.pos p) 1000000) as Hk.
  pose proof (Z.mod_pos_bound (Z.pos p) 1000000 eq_refl) as Hs'.
  set (k := Z.pos p / 1000000) in *.
  set (s0 := Z.pos p mod 1000000) in *.
  assert (2 ^ 72 <= Z.pos p * P < 2 ^ 73) as HpP by nia.
  assert (2 ^ 52 <= q < 2 ^ 54) as Hq by lia.
  assert (k * P <= q) as Hlow by nia.
  assert (q < (k + 1) * P) as Hup by nia.
  destruct (Z_lt_le_dec q (2 ^ 53)) as [Hq53 | Hq53].
  - rewrite round_aux_53 by lia.
    replace (- (D - 73)) with (73 - D) by lia. fold P.
    f_equal. symmetry.
    destruct (round_nearest_even_cases q
                (if r =? 0 then loc_Exact else loc_Inexact (2 * r ?= 1000000)))
      as [-> | (-> & Hl)].
    + apply Z.div_unique with (r := q - k * P); lia.
    + assert (1000000 <= 2 * r) as Hhalf.
      { destruct (r =? 0); [destruct Hl as [Hl | (Hl & _)]; discriminate Hl|].
        destruct (Z.compare_spec (2 * r) 1000000);
          [lia | | lia].
        destruct Hl as [Hl | (Hl & _)]; discriminate Hl. }
      apply Z.div_unique with (r := q + 1 - k * P); nia.
  - assert (D <= 53) as HD53.
    { destruct (Z.eq_dec D 54) as [E|]; [|lia].
      exfalso. unfold P in *. rewrite E in *. cbn in Hqr, Hq53, Hp. nia. }
    assert (2 ^ 20 <= P) as HP20 by (apply Z.pow_le_mono_r; lia).
    destruct (round_aux_54 sx q (D - 73)
                (if r =? 0 then loc_Exact else loc_Inexact (2 * r ?= 1000000)))
      as (R & -> & HR); [lia | lia |].
    replace (- (D - 73 + 1)) with (72 - D) by lia.
    assert (P = 2 * 2 ^ (72 - D)) as HP2.
    { unfold P. replace (73 - D) with (Z.succ (72 - D)) by lia.
      apply Z.pow_succ_r. lia. }
    set (P' := 2 ^ (72 - D)) in *.
    pose proof (Z_div_mod_eq_full q 2) as Hq2.
    pose proof (Z.mod_pos_bound q 2 eq_refl) as Hb.
    f_equal. symmetry.
    destruct HR as [-> | (-> & Hodd)].
    + apply Z.div_unique with (r := q / 2 - k * P'); lia.
    + assert (q mod 2 = 1) as Hm.
      { rewrite Zmod_odd, Hodd. reflexivity. }
      apply Z.div_unique with (r := q / 2 + 1 - k * P'); nia.
Qed.

Lemma int_true_divide_million a :
  - (2 ^ 34 * 1000000) < a < 2 ^ 34 * 1000000 ->
  Py.int_of_float (Py.true_divide a 1000000) = Z.quot a 1000000.
Proof.
  intros Ha. unfold Py.true_divide. destruct a as [|p|p]; cbn [Py.exact_int].
  - reflexivity.
  - rewrite divide_by_million by lia. cbn [Py.with_sign].
    symmetry. apply Z.quot_div_nonneg; lia.
  - rewrite divide_by_million by lia. cbn [Py.with_sign].
    change (Z.neg p) with (- Z.pos p). rewrite Z.quot_opp_l by lia.
    f_equal. symmetry. apply Z.quot_div_nonneg; lia.
Qed.

(** ** The report *)

(** [round_time] drops the fraction of a second: toward zero, hence
    downward on a duration that is not negative. *)
Lemma round_time_truncates delta :
  - (2 ^ 34 * 1000000) < delta < 2 ^ 34 * 1000000 ->
  round_time delta = Dt.of_seconds (Z.quot delta Dt.us_per_second).
Proof.
  intros H. unfold round_time, Dt.total_seconds, Dt.us_per_second.
  rewrite int_true_divide_million by assumption. reflexivity.
Qed.

Lemma round_time_rounds_down delta :
  0 <= delta < 2 ^ 34 * 1000000 ->
  round_time delta = Dt.of_seconds (delta / Dt.us_per_second).
Proof.
  intros H. rewrite round_time_truncates by lia.
  f_equal. apply Z.quot_div_nonneg; unfold Dt.us_per_second; lia.
Qed.

Lemma report_scenario T0 :
  report_of (T0 - Dt.of_seconds 100) T0 (Some (T0 + Dt.of_seconds 5))
            (T0 + Dt.of_seconds 20) =
  {| import_duration := Dt.of_seconds 5;
     index_duration := Some (Dt.of_seconds 15);
     total_duration := Dt.of_seconds 20;
     backlog := Dt.of_seconds 120 |}.
Proof.
  unfold report_of.
  replace (Dt.sub (T0 + Dt.of_seconds 5) T0) with 5000000
    by (unfold Dt.sub, Dt.of_seconds, Dt.us_per_second; lia).
  replace (Dt.sub (T0 + Dt.of_seconds 20) (T0 + Dt.of_seconds 5)) with 15000000
    by (unfold Dt.sub, Dt.of_seconds, Dt.us_per_second; lia).
  replace (Dt.sub (T0 + Dt.of_seconds 20) T0) with 20000000
    by (unfold Dt.sub, Dt.of_seconds, Dt.us_per_second; lia).
  replace (Dt.sub (T0 + Dt.of_seconds 20) (T0 - Dt.of_seconds 100))
    with 120000000
    by (unfold Dt.sub, Dt.of_seconds, Dt.us_per_second; lia).
  vm_compute. reflexivity.
Qed.

(** C6, as the code has it: with loop start [T0], index start [T0+5s],
    now [T0+20s] and batch timestamp [T0-100s], the report line shows
    import 5 seconds, indexing 15 seconds, total 20 seconds and a
    backlog of 120 seconds, which is now minus the batch timestamp; the
    indexing duration is part of the line exactly when [start_index] is
    set; every shown duration is a whole number of seconds, the
    duration rounded down when it is not negative (and below [2**34]
    seconds, where the division in floating point is still exact
    enough). *)
Theorem report_update_scenario env h T0 :
  clock env h = T0 + Dt.of_seconds 20 ->
  _report_update env (T0 - Dt.of_seconds 100) T0 (Some (T0 + Dt.of_seconds 5)) h =
    Ok tt (h ++ [DatetimeNow (T0 + Dt.of_seconds 20);
                 Log WARNING
                   "Update completed. Import: 0:00:05. Indexing: 0:00:15 Total: 0:00:20. Remaining backlog: 0:02:00."]) /\
  report_of (T0 - Dt.of_seconds 100) T0 (Some (T0 + Dt.of_seconds 5))
            (T0 + Dt.of_seconds 20) =
    {| import_duration := Dt.of_seconds 5;
       index_duration := Some (Dt.of_seconds 15);
       total_duration := Dt.of_seconds 20;
       backlog := Dt.of_seconds 120 |} /\
  (forall batchdate start_import start_index end_,
      index_duration (report_of batchdate start_import start_index end_) = None
      <-> start_index = None) /\
  (forall batchdate start_import end_,
      report_message (report_of batchdate start_import None end_) =
      ("Update completed. Import: "
       ++ Dt.str (round_time (Dt.sub end_ start_import))
       ++ ". Total: " ++ Dt.str (round_time (Dt.sub end_ start_import))
       ++ ". Remaining backlog: "
       ++ Dt.str (round_time (Dt.sub end_ batchdate)) ++ ".")%string) /\
  (forall delta, round_time delta mod Dt.us_per_second = 0) /\
  (forall delta,
      0 <= delta < 2 ^ 34 * 1000000 ->
      round_time delta = Dt.of_seconds (delta / Dt.us_per_second)).
Proof.
  intros Hclock. split; [|split; [|split; [|split; [|split]]]].
  - unfold _report_update, LOG_warning. step. unfold emit. norm_hist.
    rewrite Hclock, report_scenario. reflexivity.
  - apply report_scenario.
  - intros b s [t|] e; cbn; split; congruence.
  - intros b s e. reflexivity.
  - intros delta. unfold round_time, Dt.of_seconds. apply Z.mod_mul.
    discriminate.
  - apply round_time_rounds_down.
Qed.

(** The backlog shown in that scenario is 120 seconds, not 100. *)
Lemma report_backlog_is_not_100_seconds :
  ~ (forall T0 : Dt.datetime,
        backlog (report_of (T0 - Dt.of_seconds 100) T0
                           (Some (T0 + Dt.of_seconds 5))
                           (T0 + Dt.of_seconds 20)) = Dt.of_seconds 100).
Proof.
  intros H. specialize (H 1600000000000000).
  rewrite report_scenario in H. discriminate H.
Qed.

(** ** Connections *)

Lemma fresh_conn_not_opened h : ~ In (fresh_conn h) (opened h).
Proof.
  unfold fresh_conn. intros Hin.
  assert (Forall (fun k => (k <= list_max (opened h))%nat) (opened h)) as F
    by (apply list_max_le; apply Nat.le_refl).
  rewrite Forall_forall in F. apply F in Hin. lia.
Qed.

Lemma opened_app h l : opened (h ++ l) = opened h ++ opened l.
Proof. unfold opened. apply flat_map_app. Qed.

Lemma live_app h l : live (h ++ l) = fold_left live_step l (live h).
Proof. unfold live. apply fold_left_app. Qed.

Lemma remove_self (c : Conn) : remove Nat.eq_dec c [c] = [].
Proof. cbn. destruct (Nat.eq_dec c c); congruence. Qed.

Lemma idle_nil l : idle_during_work l [].
Proof. intros [|x pre] e post E; discriminate E. Qed.

Lemma idle_cons l e evs :
  (is_indexing e || is_sleep e = true -> l = []) ->
  idle_during_work (live_step l e) evs ->
  idle_during_work l (e :: evs).
Proof.
  intros He Hevs [|x pre] e' post E Hbusy; injection E as E1 E2; subst.
  - cbn. auto.
  - cbn [fold_left]. eapply Hevs; eauto.
Qed.

Lemma idle_app l evs1 evs2 :
  idle_during_work l evs1 ->
  idle_during_work (fold_left live_step evs1 l) evs2 ->
  idle_during_work l (evs1 ++ evs2).
Proof.
  revert l. induction evs1 as [|x evs1 IH]; intros l H1 H2; cbn in *.
  - assumption.
  - apply idle_cons.
    + intros Hb. exact (H1 [] x evs1 eq_refl Hb).
    + apply IH; [|assumption].
      intros pre e post E Hb. exact (H1 (x :: pre) e post (f_equal _ E) Hb).
Qed.

Ltac idle :=
  repeat (apply idle_cons;
          [ cbn; intros; first [discriminate | reflexivity]
          | cbn [live_step]; rewrite ?remove_self ]);
  apply idle_nil.

(** An iteration closes every connection it opens, and holds none while
    it indexes or sleeps. *)
Lemma update_iteration_idle env args params rc h :
  history_of (update_iteration env args params rc h) =
    h ++ events_of (update_iteration env args params rc) h /\
  idle_during_work [] (events_of (update_iteration env args params rc) h) /\
  fold_left live_step (events_of (update_iteration env args params rc) h) [] = [].
Proof.
  iteration_cases env args params rc h; rewrite Hev, Hrun; clear Hev Hrun;
    destruct (once args), state, rc;
    try match goal with
        | |- context [sleep_failure ?env ?h ?secs] =>
            destruct (sleep_failure env h secs)
        end;
    cbn [is_not_NO_CHANGES is_NO_CHANGES andb app history_of] in *;
    try discriminate;
    (split; [repeat rewrite <- app_assoc; reflexivity|]);
    (split; [idle | cbn [fold_left live_step]; rewrite ?remove_self; reflexivity]).
Qed.

Lemma while_true_idle env args params rc fuel :
  forall h, exists evs,
    history_of (while_true fuel (update_iteration env args params rc) h) = h ++ evs /\
    idle_during_work [] evs /\
    fold_left live_step evs [] = [].
Proof.
  induction fuel as [|fuel IH]; intros h.
  - exists []. cbn. rewrite app_nil_r. auto using idle_nil.
  - destruct (update_iteration_idle env args params rc h) as (E & I & L).
    cbn [while_true]. unfold bind.
    destruct (update_iteration env args params rc h) as [[[|] s] h1 | e h1];
      cbn [history_of fst snd] in *; subst h1.
    + eexists. split; [reflexivity|]. auto.
    + destruct (IH (h ++ events_of (update_iteration env args params rc) h))
        as (evs & E2 & I2 & L2).
      exists (events_of (update_iteration env args params rc) h ++ evs).
      rewrite E2, app_assoc. split; [reflexivity|]. split.
      * apply idle_app; [assumption|]. rewrite L. assumption.
      * rewrite fold_left_app, L. assumption.
    + eexists. split; [reflexivity|]. auto.
Qed.

Lemma update_idle env value fuel args h :
  exists evs,
    history_of (_update env value fuel args h) = h ++ evs /\
    idle_during_work [] evs /\
    fold_left live_step evs [] = [].
Proof.
  unfold _update, check_update_interval, check_continuous, LOG_fatal.
  destruct (_ && _).
  - repeat step. eexists [_]. split; [reflexivity|]. split; [idle|reflexivity].
  - step. destruct (once args); cbn [negb].
    + step. unfold bind.
      destruct (while_true_idle env args (update_params args) None fuel h)
        as (evs & E & I & L).
      exists evs. destruct (while_true _ _ _); cbn [history_of ret] in *; auto.
    + destruct (do_index args); cbn [negb].
      * repeat step. unfold bind.
        destruct (while_true_idle env args (update_params args)
                    (Some (REPLICATION_RECHECK_INTERVAL (config args))) fuel h)
          as (evs & E & I & L).
        exists evs. destruct (while_true _ _ _); cbn [history_of ret] in *; auto.
      * repeat step. eexists [_]. split; [reflexivity|].
        split; [idle|reflexivity].
Qed.

Lemma run_idle env value fuel args h :
  exists evs,
    history_of (run env value fuel args h) = h ++ evs /\
    idle_during_work [] evs.
Proof.
  unfold run. rewrite bind_setdefaulttimeout.
  destruct (seconds_error (socket_timeout args));
    [cbn [history_of]; eexists [_]; split; [reflexivity|idle]|].
  cbv beta.
  destruct (init args); [|destruct (check_for_updates args)].
  - unfold _init_replication, LOG_warning, replication_init_replication,
      refresh_create_functions, conn_close.
    destruct (update_functions args); repeat step; unfold ret;
      cbn [history_of]; eexists; (split; [reflexivity|]); idle.
  - unfold _check_for_updates, replication_check_for_updates, conn_close.
    repeat step. unfold bind, ret, emit. cbn beta iota. cbn [history_of].
    norm_hist. eexists; (split; [reflexivity|]); idle.
  - destruct (update_idle env value fuel args
                (h ++ [SetDefaultTimeout (socket_timeout args)]))
      as (evs & E & I & L).
    exists (SetDefaultTimeout (socket_timeout args) :: evs).
    split; [rewrite E, <- app_assoc; reflexivity|].
    apply idle_cons; [discriminate|assumption].
Qed.

(** C8: in a run that starts with no connection open, no connection is
    open at any call into the indexing engine nor at any sleep.  Every
    iteration starts by opening a connection that was never opened
    before and ends with none open; when it indexes, the first
    connection is closed before the indexing calls, and the status
    writes that follow them are made on a second new connection, opened
    after the indexing calls and closed right after the writes. *)
Theorem connections_not_held env value args fuel h :
  live h = [] ->
  idle_during_work (live h) (events_of (run env value fuel args) h) /\
  forall params rc h1,
    live h1 = [] ->
    exists conn rest,
      events_of (update_iteration env args params rc) h1 =
        Connect (get_libpq_dsn (config args)) conn :: rest /\
      ~ In conn (opened h1) /\
      idle_during_work (live h1)
        (events_of (update_iteration env args params rc) h1) /\
      live (h1 ++ events_of (update_iteration env args params rc) h1) = [] /\
      (forall e,
          In e rest -> is_indexing e = true ->
          exists start state row t conn2 rest',
            let dsn := get_libpq_dsn (config args) in
            let indexer :=
              {| indexer_dsn := dsn;
                 indexer_threads := Py.or_default (threads args) 1 |} in
            rest =
              [DatetimeNow start; ReplicationUpdate conn params state;
               LogStatus conn start "import"; GetStatus conn row;
               ConnClose conn;
               DatetimeNow t; IndexerInit indexer;
               IndexBoundaries indexer 0 30; IndexByRank indexer 0 30;
               Connect dsn conn2; SetIndexed conn2 true;
               LogStatus conn2 t "index"; ConnClose conn2] ++ rest' /\
            conn2 <> conn /\
            ~ In conn2 (opened h1) /\
            Forall (fun e => match e with
                             | DatetimeNow _ | Log WARNING _ => True
                             | _ => False
                             end) rest').
Proof.
  intros Hlive. split.
  - destruct (run_idle env value fuel args h) as (evs & E & I).
    unfold events_of. rewrite E, skipn_length_app, Hlive. assumption.
  - intros params rc h1 Hlive1.
    destruct (update_iteration_idle env args params rc h1) as (_ & I & L).
    rewrite live_app, Hlive1, L.
    iteration_cases env args params rc h1; clear Hrun; exists conn; eexists;
      (split; [rewrite Hev; cbn [app]; reflexivity|]);
      (split; [rewrite Hconn; apply fresh_conn_not_opened|]);
      (split; [assumption|]); (split; [reflexivity|]);
      intros e Hin He;
      try (exfalso; destruct (once args), state, rc; absurd_in; subst e;
           discriminate).
    all: destruct state;
      try (cbn [is_not_NO_CHANGES andb] in Hc; discriminate Hc).
    all: exists start, CHANGED, row, t, conn2; eexists; cbn zeta.
    all: split; [cbn [is_not_NO_CHANGES is_NO_CHANGES app];
                 destruct (once args); cbn [app]; reflexivity|].
    all: match type of Hconn2 with
         | _ = fresh_conn ?H =>
             pose proof (fresh_conn_not_opened H) as F;
             rewrite <- Hconn2 in F; repeat rewrite opened_app in F;
             cbn [opened flat_map app is_not_NO_CHANGES] in F;
             repeat rewrite in_app_iff in F; cbn [In] in F
         end.
    all: split; [intros ->; apply F; auto|].
    all: split; [intros Hop; apply F; auto|].
    all: destruct (once args); repeat constructor.
Qed.

(** ** The theorems at concrete inputs *)


Lemma changed_iteration_with_indexing_witness :
  In (ReplicationUpdate 1%nat
        (update_params (update_args planet_config false true)) CHANGED)
     (events_of
        (update_iteration (steady_env CHANGED 0)
           (update_args planet_config false true)
           (update_params (update_args planet_config false true)) (Some 60))
        []) /\
  do_index (update_args planet_config false true) = true /\
  forall secs,
    ~ In (Sleep secs)
         (events_of
            (update_iteration (steady_env CHANGED 0)
               (update_args planet_config false true)
               (update_params (update_args planet_config false true))
               (Some 60))
            []).
Proof.
  assert (In (ReplicationUpdate 1%nat
                (update_params (update_args planet_config false true)) CHANGED)
             (events_of
                (update_iteration (steady_env CHANGED 0)
                   (update_args planet_config false true)
                   (update_params (update_args planet_config false true))
                   (Some 60))
                [])) as Hin
    by (vm_compute; auto).
  split; [exact Hin|]. split; [reflexivity|].
  destruct (changed_iteration_with_indexing _ _ _ _ _ _ _ Hin eq_refl)
    as (start & row & index_start & conn2 & report & _ & _ & _ & Hsleep & _).
  exact Hsleep.
Defined.

Lemma rate_limit_guard_witness :
  ((exists pre post,
       REPLICATION_URL (config (update_args mirror_config true true)) =
       (pre ++ "download.geofabrik.de" ++ post)%string) /\
   3600 < 86400 /\
   _update (steady_env CHANGED 0) exit_value 3
     (update_args mirror_config true true) [] =
   Raised (UsageError "Invalid replication update interval setting.")
          [Log FATAL interval_too_low_message]) /\
  (86400 <= 86400 /\
   check_update_interval
     (update_params (update_args (geofabrik_config 86400) true true)) [] =
   Ok tt []) /\
  (~ (exists pre post,
         REPLICATION_URL (config (update_args planet_config true true)) =
         (pre ++ "download.geofabrik.de" ++ post)%string) /\
   check_update_interval
     (update_params (update_args planet_config true true)) [] = Ok tt []).
Proof.
  assert (exists pre post,
             REPLICATION_URL (config (update_args mirror_config true true)) =
             (pre ++ "download.geofabrik.de" ++ post)%string) as Hsub
    by (exists "https://mirror.example.org/"%string, "/europe-updates"%string;
        reflexivity).
  assert (~ (exists pre post,
                REPLICATION_URL (config (update_args planet_config true true)) =
                (pre ++ "download.geofabrik.de" ++ post)%string)) as Hno
    by (intros Hex; apply contains_spec in Hex; vm_compute in Hex;
        discriminate Hex).
  assert (3600 < 86400) as Hlow by lia.
  assert (86400 <= 86400) as Hhigh by lia.
  split; [|split].
  - split; [exact Hsub|]. split; [exact Hlow|].
    exact (proj1 (rate_limit_guard (steady_env CHANGED 0) exit_value
                    (update_args mirror_config true true) 3 [])
             Hsub Hlow).
  - split; [exact Hhigh|].
    exact (proj1 (proj2 (rate_limit_guard (steady_env CHANGED 0) exit_value
                           (update_args (geofabrik_config 86400) true true)
                           3 [])
                    (or_introl Hhigh))).
  - split; [exact Hno|].
    exact (proj1 (proj2 (rate_limit_guard (steady_env CHANGED 0) exit_value
                           (update_args planet_config true true) 3 [])
                    (or_intror Hno))).
Defined.

Lemma continuous_without_indexing_guard_witness :
  (once (update_args planet_config false false) = false /\
   do_index (update_args planet_config false false) = false /\
   check_continuous (update_args planet_config false false) [] =
   Raised (UsageError "Bad argument '--no-index'.")
     [Log FATAL "Indexing cannot be disabled when running updates continuously."]) /\
  (do_index (update_args planet_config false true) = true /\
   check_continuous (update_args planet_config false true) [] =
   Ok (Some 60) []) /\
  (once (update_args planet_config true false) = true /\
   check_continuous (update_args planet_config true false) [] = Ok None []).
Proof.
  split; [|split].
  - split; [reflexivity|]. split; [reflexivity|].
    apply (proj1 (proj1 (continuous_without_indexing_guard
                           (steady_env CHANGED 0) exit_value
                           (update_args planet_config false false) 3 [])
                   eq_refl eq_refl)).
  - split; [reflexivity|].
    apply (proj1 (proj2 (continuous_without_indexing_guard
                           (steady_env CHANGED 0) exit_value
                           (update_args planet_config false true) 3 []))
             eq_refl eq_refl).
  - split; [reflexivity|].
    apply (proj1 (proj2 (proj2 (continuous_without_indexing_guard
                                  (steady_env CHANGED 0) exit_value
                                  (update_args planet_config true false) 3 [])))
             eq_refl).
Defined.

Lemma single_run_terminates_witness :
  once (update_args planet_config true true) = true /\
  Py.contains geofabrik_host (REPLICATION_URL planet_config)
  && (REPLICATION_UPDATE_INTERVAL planet_config <? 86400) = false /\
  0 <= socket_timeout (update_args planet_config true true) <= max_seconds /\
  exists conn start row t conn2 report_events,
    let indexer := {| indexer_dsn := "dbname=nominatim"; indexer_threads := 4 |} in
    _update (steady_env CHANGED 0) exit_value 1
      (update_args planet_config true true) [] =
    Ok (Some 0)
       ([Connect "dbname=nominatim" conn; DatetimeNow start;
         ReplicationUpdate conn
           (update_params (update_args planet_config true true)) CHANGED;
         LogStatus conn start "import"; GetStatus conn row; ConnClose conn;
         DatetimeNow t; IndexerInit indexer;
         IndexBoundaries indexer 0 30; IndexByRank indexer 0 30;
         Connect "dbname=nominatim" conn2; SetIndexed conn2 true;
         LogStatus conn2 t "index"; ConnClose conn2] ++ report_events) /\
    run (steady_env CHANGED 0) exit_value 1
      (update_args planet_config true true) [] =
    _update (steady_env CHANGED 0) exit_value 1
      (update_args planet_config true true) [SetDefaultTimeout 60].
Proof.
  assert (0 <= socket_timeout (update_args planet_config true true)
          <= max_seconds) as Hrange
    by (rewrite max_seconds_value; cbn; lia).
  split; [reflexivity|]. split; [reflexivity|]. split; [exact Hrange|].
  destruct (single_run_terminates (steady_env CHANGED 0) exit_value
              (update_args planet_config true true) 0 [] eq_refl eq_refl)
    as (conn & start & state & row & index_events & report_events
        & Hstate & Hrun & Hix & _ & Hexit).
  cbn in Hstate. subst state.
  cbn [is_not_NO_CHANGES do_index update_args andb] in Hix.
  destruct Hix as (t & conn2 & ->).
  exists conn, start, row, t, conn2, report_events.
  split; [exact Hrun|].
  exact (Hexit [] eq_refl eq_refl Hrange).
Defined.

Lemma report_update_scenario_witness :
  clock (steady_env CHANGED (1600000020 * 1000000)) [] =
    1600000000 * 1000000 + Dt.of_seconds 20 /\
  _report_update (steady_env CHANGED (1600000020 * 1000000))
    (1600000000 * 1000000 - Dt.of_seconds 100) (1600000000 * 1000000)
    (Some (1600000000 * 1000000 + Dt.of_seconds 5)) [] =
  Ok tt
    ([] ++ [DatetimeNow (1600000000 * 1000000 + Dt.of_seconds 20);
            Log WARNING
              "Update completed. Import: 0:00:05. Indexing: 0:00:15 Total: 0:00:20. Remaining backlog: 0:02:00."]) /\
  0 <= 5999999 < 2 ^ 34 * 1000000 /\
  round_time 5999999 = Dt.of_seconds (5999999 / Dt.us_per_second).
Proof.
  assert (clock (steady_env CHANGED (1600000020 * 1000000)) [] =
          1600000000 * 1000000 + Dt.of_seconds 20) as Hclock
    by (vm_compute; reflexivity).
  assert (0 <= 5999999 < 2 ^ 34 * 1000000) as Hdelta
    by lia.
  split; [exact Hclock|].
  split; [exact (proj1 (report_update_scenario _ _ _ Hclock))|].
  split; [exact Hdelta|].
  exact (proj2 (proj2 (proj2 (proj2 (proj2
           (report_update_scenario _ _ _ Hclock))))) _ Hdelta).
Defined.

Lemma connections_not_held_witness :
  live [] = [] /\
  idle_during_work (live [])
    (events_of
       (run (steady_env CHANGED 0) exit_value 2
          (update_args planet_config false true))
       []).
Proof.
  split; [reflexivity|].
  apply (proj1 (connections_not_held (steady_env CHANGED 0) exit_value
                  (update_args planet_config false true) 2 [] eq_refl)).
Defined.

Lemma index_rank_range_witness :
  In (IndexByRank {| indexer_dsn := "dbname=nominatim"; indexer_threads := 4 |}
        0 30)
     (events_of
        (run (steady_env CHANGED 0) exit_value 2
           (update_args planet_config false true))
        []) /\
  (0 = 0 /\ 30 = 30).
Proof.
  assert (In (IndexByRank
                {| indexer_dsn := "dbname=nominatim"; indexer_threads := 4 |}
                0 30)
             (events_of
                (run (steady_env CHANGED 0) exit_value 2
                   (update_args planet_config false true))
                [])) as Hin
    by (vm_compute; auto 20).
  split; [exact Hin|].
  exact (proj1 (index_rank_range (steady_env CHANGED 0) exit_value
                  (update_args planet_config false true) 2 []) _ Hin).
Defined.

Lemma indexed_only_is_continuous_mode_witness :
  In (ReplicationUpdate 1%nat
        (update_params (update_args planet_config false true)) CHANGED)
     (events_of
        (run (steady_env CHANGED 0) exit_value 2
           (update_args planet_config false true))
        []) /\
  indexed_only (update_params (update_args planet_config false true)) =
  negb (once (update_args planet_config false true)).
Proof.
  assert (In (ReplicationUpdate 1%nat
                (update_params (update_args planet_config false true)) CHANGED)
             (events_of
                (run (steady_env CHANGED 0) exit_value 2
                   (update_args planet_config false true))
                [])) as Hin
    by (vm_compute; auto 20).
  split; [exact Hin|].
  exact (proj2 (proj2 (proj2
           (indexed_only_is_continuous_mode (steady_env CHANGED 0) exit_value
              (update_args planet_config false true) 2 []))) _ _ _ Hin).
Defined.

(** * Further properties of the module *)

(** ** The options handed to osm2pgsql and to the indexer *)

Lemma or_default_nonzero x default :
  default <> 0 -> Py.or_default x default <> 0.
Proof.
  intros Hd. unfold Py.or_default. destruct x as [v|]; [|assumption].
  destruct (Z.eqb_spec v 0); assumption.
Qed.

(** X1: [x or default] on the cache size and on the thread count: a
    value that is given and not 0 is kept, a missing value and an
    explicit 0 both give the default; with a default that is not 0 the
    option is never 0, so that [_update] never hands osm2pgsql 0
    threads or a cache of size 0. *)
Theorem osm2pgsql_options_fall_back_on_zero args default_cache default_threads :
  (forall n, osm2pgsql_cache args = Some n -> n <> 0 ->
     opt_osm2pgsql_cache
       (_osm2pgsql_options_from_args args default_cache default_threads) = n) /\
  (osm2pgsql_cache args = None \/ osm2pgsql_cache args = Some 0 ->
     opt_osm2pgsql_cache
       (_osm2pgsql_options_from_args args default_cache default_threads) =
     default_cache) /\
  (forall n, threads args = Some n -> n <> 0 ->
     opt_threads
       (_osm2pgsql_options_from_args args default_cache default_threads) = n) /\
  (threads args = None \/ threads args = Some 0 ->
     opt_threads
       (_osm2pgsql_options_from_args args default_cache default_threads) =
     default_threads) /\
  opt_osm2pgsql_cache (options (update_params args)) <> 0 /\
  opt_threads (options (update_params args)) <> 0.
Proof.
  cbn [_osm2pgsql_options_from_args opt_osm2pgsql_cache opt_threads options
       update_params].
  repeat split.
  - intros n -> Hn. cbn. destruct (Z.eqb_spec n 0); congruence.
  - intros [-> | ->]; reflexivity.
  - intros n -> Hn. cbn. destruct (Z.eqb_spec n 0); congruence.
  - intros [-> | ->]; reflexivity.
  - apply or_default_nonzero. discriminate.
  - apply or_default_nonzero. discriminate.
Qed.

Lemma osm2pgsql_options_fall_back_on_zero_witness :
  threads (update_args planet_config true true) = Some 4 /\
  4 <> 0 /\
  opt_threads
    (_osm2pgsql_options_from_args (update_args planet_config true true) 2000 1)
  = 4 /\
  osm2pgsql_cache (update_args planet_config true true) = None /\
  opt_osm2pgsql_cache
    (_osm2pgsql_options_from_args (update_args planet_config true true) 2000 1)
  = 2000.
Proof.
  assert (4 <> 0) as H4 by discriminate.
  split; [reflexivity|]. split; [exact H4|].
  split.
  - exact (proj1 (proj2 (proj2
             (osm2pgsql_options_fall_back_on_zero
                (update_args planet_config true true) 2000 1)))
             4 eq_refl H4).
  - split; [reflexivity|].
    exact (proj1 (proj2
             (osm2pgsql_options_fall_back_on_zero
                (update_args planet_config true true) 2000 1))
             (or_introl eq_refl)).
Defined.

(** ** From one iteration to a whole run *)

Lemma update_iteration_emits env args params rc (P : Event -> Prop) :
  (forall h e, In e (events_of (update_iteration env args params rc) h) -> P e) ->
  emits_only P (update_iteration env args params rc).
Proof.
  intros HP h. exists (events_of (update_iteration env args params rc) h).
  split; [apply update_iteration_idle|].
  apply Forall_forall. apply HP.
Qed.

Lemma emits_only_ext {A} P (m m' : M A) :
  (forall h, m h = m' h) -> emits_only P m' -> emits_only P m.
Proof. intros E Hm h. rewrite E. apply Hm. Qed.

Lemma update_emits env value fuel args (P : Event -> Prop) :
  (forall msg, P (Log FATAL msg)) ->
  emits_only P
    (update_iteration env args (update_params args)
       (if once args then None
        else Some (REPLICATION_RECHECK_INTERVAL (config args)))) ->
  emits_only P (_update env value fuel args).
Proof.
  intros Hfatal Hbody.
  unfold _update, check_update_interval, check_continuous, LOG_fatal.
  apply emits_only_bind; [destruct (_ && _); emits; apply Hfatal|intros _].
  destruct (once args); cbn [negb].
  - apply emits_only_ext with
      (m' := state <- while_true fuel
                        (update_iteration env args (update_params args) None) ;;
             ret (option_map value state));
      [intros h; rewrite bind_ret; reflexivity|].
    apply emits_only_bind; [|intro; apply emits_only_ret].
    apply emits_only_while_true. assumption.
  - destruct (do_index args); cbn [negb].
    + apply emits_only_ext with
        (m' := state <- while_true fuel
                          (update_iteration env args (update_params args)
                             (Some (REPLICATION_RECHECK_INTERVAL (config args)))) ;;
               ret (option_map value state));
        [intros h; rewrite bind_bind, bind_ret, bind_ret; reflexivity|].
      apply emits_only_bind; [|intro; apply emits_only_ret].
      apply emits_only_while_true. assumption.
    + intros h. repeat step. eexists [_]. split; [reflexivity|].
      constructor; [apply Hfatal|constructor].
Qed.

Lemma run_emits env value fuel args (P : Event -> Prop) :
  (forall secs, P (SetDefaultTimeout secs)) ->
  (init args = true -> emits_only P (_init_replication args)) ->
  (init args = false -> check_for_updates args = true ->
   emits_only P (_check_for_updates env args)) ->
  (init args = false -> check_for_updates args = false ->
   emits_only P (_update env value fuel args)) ->
  emits_only P (run env value fuel args).
Proof.
  intros Ht Hi Hc Hu. unfold run.
  apply emits_only_bind; [apply emits_only_setdefaulttimeout, Ht|intros _].
  destruct (init args); [|destruct (check_for_updates args)].
  - apply emits_only_bind; [auto|intro; apply emits_only_ret].
  - apply emits_only_bind; [auto|intro; apply emits_only_ret].
  - auto.
Qed.

(** The events of an iteration, one by one. *)
Ltac each_event Hin :=
  cbn [In app is_not_NO_CHANGES is_NO_CHANGES andb] in Hin;
  repeat (destruct Hin as [<- | Hin]; [|]);
  try contradiction.

(** X2: every indexer of a run, and every indexing call, is made for the
    configured database with the thread count that osm2pgsql is given,
    which is never 0. *)
Theorem indexer_uses_update_options env value fuel args h e :
  In e (events_of (run env value fuel args) h) ->
  forall indexer,
    (e = IndexerInit indexer \/
     (exists minrank maxrank, e = IndexBoundaries indexer minrank maxrank) \/
     (exists minrank maxrank, e = IndexByRank indexer minrank maxrank)) ->
    indexer_dsn indexer = opt_dsn (options (update_params args)) /\
    indexer_threads indexer = opt_threads (options (update_params args)) /\
    indexer_threads indexer <> 0.
Proof.
  intros Hin indexer He.
  assert (Forall (fun e => match e with
                           | IndexerInit ix
                           | IndexBoundaries ix _ _
                           | IndexByRank ix _ _ =>
                               ix = {| indexer_dsn := get_libpq_dsn (config args);
                                       indexer_threads :=
                                         Py.or_default (threads args) 1 |}
                           | _ => True
                           end)
                 (events_of (run env value fuel args) h)) as F.
  { apply emits_only_events. apply run_emits; intros.
    - exact I.
    - unfold_calls. emits; exact I.
    - unfold_calls. emits; exact I.
    - apply update_emits; [intros; exact I|].
      apply update_iteration_emits. intros h1 e1 Hin1.
      iteration_cases env args (update_params args)
        (if once args then None
         else Some (REPLICATION_RECHECK_INTERVAL (config args))) h1;
        rewrite Hev in Hin1; clear Hev Hrun;
        destruct (once args), state; each_event Hin1; auto. }
  rewrite Forall_forall in F. specialize (F _ Hin).
  assert (indexer = {| indexer_dsn := get_libpq_dsn (config args);
                       indexer_threads := Py.or_default (threads args) 1 |})
    as ->.
  { destruct He as [-> | [(a & b & ->) | (a & b & ->)]]; exact F. }
  cbn. repeat split. apply or_default_nonzero. discriminate.
Qed.

Lemma indexer_uses_update_options_witness :
  In (IndexerInit {| indexer_dsn := "dbname=nominatim"; indexer_threads := 4 |})
     (events_of
        (run (steady_env CHANGED 0) exit_value 2
           (update_args planet_config false true))
        []) /\
  indexer_threads {| indexer_dsn := "dbname=nominatim"; indexer_threads := 4 |}
  = opt_threads (options (update_params (update_args planet_config false true))).
Proof.
  assert (In (IndexerInit
                {| indexer_dsn := "dbname=nominatim"; indexer_threads := 4 |})
             (events_of
                (run (steady_env CHANGED 0) exit_value 2
                   (update_args planet_config false true))
                [])) as Hin
    by (vm_compute; auto 20).
  split; [exact Hin|].
  exact (proj1 (proj2
           (indexer_uses_update_options _ _ _ _ _ _ Hin _ (or_introl eq_refl)))).
Defined.

(** ** The three modes of [run] *)

(** X3: with [--init] and a socket timeout that
    [socket.setdefaulttimeout] accepts, whatever the other flags are,
    [run] sets the socket timeout, initialises replication from the
    configured URL on a new connection, creates the functions exactly
    when [update_functions] is set, closes the connection and returns
    0; it makes no other call. *)
Theorem run_init_mode env value fuel args h :
  init args = true ->
  0 <= socket_timeout args <= max_seconds ->
  exists conn,
    ~ In conn (opened h) /\
    run env value fuel args h =
    Ok (Some 0)
       (h ++ [SetDefaultTimeout (socket_timeout args);
              Log WARNING "Initialising replication updates";
              Connect (get_libpq_dsn (config args)) conn;
              InitReplication conn (REPLICATION_URL (config args))]
          ++ (if update_functions args
              then [Log WARNING "Create functions"; CreateFunctions conn]
              else [])
          ++ [ConnClose conn]).
Proof.
  intros Hinit Hrange.
  exists (fresh_conn (h ++ [SetDefaultTimeout (socket_timeout args);
                            Log WARNING "Initialising replication updates"])).
  split.
  - intros Hin.
    match type of Hin with
    | In (fresh_conn ?H) _ =>
        apply (fresh_conn_not_opened H); rewrite opened_app;
        apply in_or_app; left; exact Hin
    end.
  - unfold run.
    rewrite bind_setdefaulttimeout, (proj2 (seconds_error_none _) Hrange), Hinit.
    unfold _init_replication, LOG_warning, replication_init_replication,
      refresh_create_functions, conn_close.
    destruct (update_functions args); repeat step; reflexivity.
Qed.

Lemma run_init_mode_witness :
  init {| config := planet_config; project_dir := []; data_dir := "";
          osm2pgsql_path := ""; osm2pgsql_cache := None; threads := None;
          init := true; update_functions := false;
          check_for_updates := true; once := true; do_index := false;
          socket_timeout := 30 |} = true /\
  0 <= 30 <= max_seconds /\
  exists conn,
    run (steady_env CHANGED 0) exit_value 5
      {| config := planet_config; project_dir := []; data_dir := "";
         osm2pgsql_path := ""; osm2pgsql_cache := None; threads := None;
         init := true; update_functions := false;
         check_for_updates := true; once := true; do_index := false;
         socket_timeout := 30 |} [] =
    Ok (Some 0)
       [SetDefaultTimeout 30;
        Log WARNING "Initialising replication updates";
        Connect "dbname=nominatim" conn;
        InitReplication conn "https://planet.openstreetmap.org/replication/minute";
        ConnClose conn].
Proof.
  assert (0 <= 30 <= max_seconds) as Hrange
    by (rewrite max_seconds_value; lia).
  split; [reflexivity|]. split; [exact Hrange|].
  destruct (run_init_mode (steady_env CHANGED 0) exit_value 5
              {| config := planet_config; project_dir := []; data_dir := "";
                 osm2pgsql_path := ""; osm2pgsql_cache := None; threads := None;
                 init := true; update_functions := false;
                 check_for_updates := true; once := true; do_index := false;
                 socket_timeout := 30 |} [] eq_refl Hrange) as (conn & _ & E).
  exists conn. exact E.
Defined.

(** X4: without [--init], with [--check-for-updates] and with a socket
    timeout that [socket.setdefaulttimeout] accepts, [run] asks the
    replication service once, on a new connection that it closes, and
    returns the answer as it is; it applies nothing, indexes nothing
    and writes no status. *)
Theorem run_check_mode env value fuel args h :
  init args = false ->
  check_for_updates args = true ->
  0 <= socket_timeout args <= max_seconds ->
  exists conn answer,
    ~ In conn (opened h) /\
    run env value fuel args h =
    Ok (Some answer)
       (h ++ [SetDefaultTimeout (socket_timeout args);
              Connect (get_libpq_dsn (config args)) conn;
              CheckForUpdates conn (REPLICATION_URL (config args)) answer;
              ConnClose conn]).
Proof.
  intros Hinit Hcheck Hrange.
  exists (fresh_conn (h ++ [SetDefaultTimeout (socket_timeout args)])).
  eexists. split.
  - intros Hin.
    match type of Hin with
    | In (fresh_conn ?H) _ =>
        apply (fresh_conn_not_opened H); rewrite opened_app;
        apply in_or_app; left; exact Hin
    end.
  - unfold run.
    rewrite bind_setdefaulttimeout, (proj2 (seconds_error_none _) Hrange),
      Hinit, Hcheck.
    unfold _check_for_updates, replication_check_for_updates, conn_close.
    repeat step. unfold bind, ret, emit. cbn beta iota. norm_hist.
    reflexivity.
Qed.

Lemma run_check_mode_witness :
  init {| config := planet_config; project_dir := []; data_dir := "";
          osm2pgsql_path := ""; osm2pgsql_cache := None; threads := None;
          init := false; update_functions := true;
          check_for_updates := true; once := false; do_index := false;
          socket_timeout := 30 |} = false /\
  0 <= 30 <= max_seconds /\
  exists conn answer,
    run (steady_env CHANGED 0) exit_value 5
      {| config := planet_config; project_dir := []; data_dir := "";
         osm2pgsql_path := ""; osm2pgsql_cache := None; threads := None;
         init := false; update_functions := true;
         check_for_updates := true; once := false; do_index := false;
         socket_timeout := 30 |} [] =
    Ok (Some answer)
       ([] ++ [SetDefaultTimeout 30;
               Connect "dbname=nominatim" conn;
               CheckForUpdates conn
                 "https://planet.openstreetmap.org/replication/minute" answer;
               ConnClose conn]).
Proof.
  assert (0 <= 30 <= max_seconds) as Hrange
    by (rewrite max_seconds_value; lia).
  split; [reflexivity|]. split; [exact Hrange|].
  destruct (run_check_mode (steady_env CHANGED 0) exit_value 5
              {| config := planet_config; project_dir := []; data_dir := "";
                 osm2pgsql_path := ""; osm2pgsql_cache := None; threads := None;
                 init := false; update_functions := true;
                 check_for_updates := true; once := false; do_index := false;
                 socket_timeout := 30 |} [] eq_refl eq_refl Hrange)
    as (conn & answer & _ & E).
  exists conn, answer. exact E.
Defined.

(** X5: in every mode the socket timeout is set first, before any
    connection is opened and before any other call, and it is set
    once. *)
Theorem socket_timeout_set_first env value fuel args h :
  exists rest,
    events_of (run env value fuel args) h =
      SetDefaultTimeout (socket_timeout args) :: rest /\
    forall secs, ~ In (SetDefaultTimeout secs) rest.
Proof.
  set (P := fun e => match e with SetDefaultTimeout _ => False | _ => True end).
  assert (emits_only P
            (if init args then r <- _init_replication args ;; ret (Some r)
             else if check_for_updates args
                  then r <- _check_for_updates env args ;; ret (Some r)
                  else _update env value fuel args)) as Hrest.
  { destruct (init args); [|destruct (check_for_updates args)].
    - unfold_calls. emits; exact I.
    - unfold_calls. emits; exact I.
    - apply update_emits; [intros; exact I|].
      apply update_iteration_emits. intros h1 e1 Hin1.
      iteration_cases env args (update_params args)
        (if once args then None
         else Some (REPLICATION_RECHECK_INTERVAL (config args))) h1;
        rewrite Hev in Hin1; clear Hev Hrun;
        destruct (once args), state; each_event Hin1; exact I. }
  unfold events_of, run. rewrite bind_setdefaulttimeout.
  destruct (seconds_error (socket_timeout args)).
  - exists []. split; [apply skipn_length_app | intros secs []].
  - destruct (Hrest (h ++ [SetDefaultTimeout (socket_timeout args)]))
      as (rest & E & F).
    exists rest. split.
    + rewrite E, <- app_assoc. apply skipn_length_app.
    + intros secs Hin. rewrite Forall_forall in F. exact (F _ Hin).
Qed.

(** ** The loop *)

Lemma while_true_continuous env args params secs fuel :
  once args = false ->
  (forall h, sleep_failure env h secs = None) ->
  forall h, exists evs,
    while_true fuel (update_iteration env args params (Some secs)) h =
      Ok None (h ++ evs) /\
    List.length (filter is_apply evs) = fuel.
Proof.
  intros Honce Hsleep. induction fuel as [|fuel IH]; intros h.
  - exists []. cbn. rewrite app_nil_r. auto.
  - assert (exists state,
               update_iteration env args params (Some secs) h =
               Ok (Continue, state)
                  (h ++ events_of
                          (update_iteration env args params (Some secs)) h))
      as (state & E).
    { destruct (update_iteration_outcome env args params (Some secs) h)
        as (conn & state & _ & [(_ & E) | (_ & _ & secs' & pre & Hs & _ & E)]);
        [eauto | |]; exists state.
      - rewrite Honce in E. exact E.
      - inversion Hs; subst secs'. rewrite Hsleep in E. exact E. }
    destruct (update_iteration_outcome env args params (Some secs) h)
      as (conn & state' & Happly & _); [eauto|].
    erewrite while_true_continue by exact E.
    destruct (IH (h ++ events_of
                         (update_iteration env args params (Some secs)) h))
      as (evs & E2 & L).
    exists (events_of (update_iteration env args params (Some secs)) h ++ evs).
    rewrite E2, app_assoc. split; [reflexivity|].
    rewrite filter_app, length_app, Happly, L. reflexivity.
Qed.

(** X6: without [--once], once both checks have passed and with a
    recheck interval that [time.sleep] accepts (and no sleep that the
    operating system refuses), the loop never leaves: however many
    iterations are run, [_update] has not returned a value, it has
    raised nothing, and it has made exactly one apply call per
    iteration. *)
Theorem continuous_mode_never_returns env value args fuel h :
  once args = false ->
  do_index args = true ->
  Py.contains geofabrik_host (REPLICATION_URL (config args))
  && (REPLICATION_UPDATE_INTERVAL (config args) <? 86400) = false ->
  0 <= REPLICATION_RECHECK_INTERVAL (config args) <= max_seconds ->
  (forall h', sleep_refused env h'
                (REPLICATION_RECHECK_INTERVAL (config args)) = false) ->
  exists evs,
    _update env value fuel args h = Ok None (h ++ evs) /\
    List.length (filter is_apply evs) = fuel.
Proof.
  intros Honce Hix Hok Hrange Hos.
  rewrite update_passes_checks by auto. rewrite Honce.
  destruct (while_true_continuous env args (update_params args)
              (REPLICATION_RECHECK_INTERVAL (config args)) fuel Honce
              (fun h' => sleep_failure_none env h' _ Hrange (Hos h')) h)
    as (evs & E & L).
  exists evs. unfold bind. rewrite E. split; [reflexivity | exact L].
Qed.

Lemma continuous_mode_never_returns_witness :
  once (update_args planet_config false true) = false /\
  do_index (update_args planet_config false true) = true /\
  0 <= REPLICATION_RECHECK_INTERVAL
         (config (update_args planet_config false true)) <= max_seconds /\
  (forall h', sleep_refused (steady_env NO_CHANGES 0) h' 60 = false) /\
  exists evs,
    _update (steady_env NO_CHANGES 0) exit_value 3
      (update_args planet_config false true) [] = Ok None ([] ++ evs) /\
    List.length (filter is_apply evs) = 3%nat.
Proof.
  assert (0 <= REPLICATION_RECHECK_INTERVAL
                 (config (update_args planet_config false true))
          <= max_seconds) as Hrange
    by (rewrite max_seconds_value; cbn; lia).
  assert (forall h', sleep_refused (steady_env NO_CHANGES 0) h' 60 = false)
    as Hos by reflexivity.
  split; [reflexivity|]. split; [reflexivity|]. split; [exact Hrange|].
  split; [exact Hos|].
  exact (continuous_mode_never_returns (steady_env NO_CHANGES 0) exit_value
           (update_args planet_config false true) 3 [] eq_refl eq_refl eq_refl
           Hrange Hos).
Defined.

(** An iteration is one of three sequences of calls on the store and the
    indexer, followed only by clock reads, log messages and the sleep. *)
Lemma update_iteration_core env args params rc h :
  exists conn start state row rest,
    Forall (fun e => match e with
                     | DatetimeNow _ | Log _ _ | Sleep _ => True
                     | _ => False
                     end) rest /\
    let dsn := get_libpq_dsn (config args) in
    let indexer :=
      {| indexer_dsn := dsn;
         indexer_threads := Py.or_default (threads args) 1 |} in
    ((state = NO_CHANGES /\
      events_of (update_iteration env args params rc) h =
        [Connect dsn conn; DatetimeNow start;
         ReplicationUpdate conn params NO_CHANGES;
         GetStatus conn row; ConnClose conn] ++ rest) \/
     (state = CHANGED /\ do_index args = false /\
      events_of (update_iteration env args params rc) h =
        [Connect dsn conn; DatetimeNow start;
         ReplicationUpdate conn params CHANGED;
         LogStatus conn start "import";
         GetStatus conn row; ConnClose conn] ++ rest) \/
     (state = CHANGED /\ do_index args = true /\
      exists t conn2,
        events_of (update_iteration env args params rc) h =
          [Connect dsn conn; DatetimeNow start;
           ReplicationUpdate conn params CHANGED;
           LogStatus conn start "import";
           GetStatus conn row; ConnClose conn;
           DatetimeNow t; IndexerInit indexer;
           IndexBoundaries indexer 0 30; IndexByRank indexer 0 30;
           Connect dsn conn2; SetIndexed conn2 true;
           LogStatus conn2 t "index"; ConnClose conn2] ++ rest)).
Proof.
  iteration_cases env args params rc h; rewrite Hev; clear Hev Hrun;
    destruct state; cbn [is_not_NO_CHANGES andb] in Hc; try discriminate Hc;
    match type of Hstate with
    | NO_CHANGES = _ => exists conn, start, NO_CHANGES, row
    | CHANGED = _ => exists conn, start, CHANGED, row
    end;
    eexists; cbn zeta;
    (split;
     [|first [ left; split; [reflexivity|];
               cbn [is_not_NO_CHANGES is_NO_CHANGES app]; reflexivity
             | right; left; split; [reflexivity|]; split; [exact Hc|];
               cbn [is_not_NO_CHANGES is_NO_CHANGES app]; reflexivity
             | right; right; split; [reflexivity|]; split; [exact Hc|];
               exists t, conn2;
               cbn [is_not_NO_CHANGES is_NO_CHANGES app]; reflexivity ]]);
    destruct (once args), rc; repeat constructor.
Qed.

Ltac open_ex :=
  repeat match goal with
         | H : exists _, _ |- _ => destruct H
         | H : _ /\ _ |- _ => destruct H
         end.

(** Membership in an iteration's events, given as [core ++ rest] with
    [F] saying that [rest] holds clock reads, log messages and sleeps
    only. *)
Ltac in_core F :=
  open_ex;
  repeat match goal with
         | H : In ?e (_ ++ _) |- _ =>
             apply in_app_or in H; destruct H as [H | H];
             [ cbn [In] in H
             | apply F in H; try (is_var e; destruct e);
               cbn [is_indexing] in *; try contradiction; try discriminate ]
         end;
  repeat match goal with
         | H : _ \/ _ |- _ => destruct H
         | H : False |- _ => contradiction
         end;
  subst; cbn [is_indexing] in *;
  try discriminate; try congruence.

Ltac in_core_goal :=
  try match goal with
      | |- exists e, In e _ /\ is_indexing e = true =>
          eexists (IndexerInit _); split;
          [apply in_or_app; left; cbn [In]; eauto 20 | reflexivity]
      end;
  repeat match goal with
         | |- _ /\ _ => split
         | |- exists _, _ => eexists
         end;
  try first [ assumption | reflexivity
            | apply in_or_app; left; cbn [In]; eauto 20 ].

(** X7: within one iteration, an "import" log entry is written exactly
    when the apply call returned a state other than [NO_CHANGES],
    whether or not indexing is enabled; the indexing engine is called,
    the indexed flag is set and an "index" log entry is written exactly
    when moreover indexing is enabled, and the flag is only ever set to
    true. *)
Theorem iteration_logs_and_indexes_iff env args params rc h :
  ((exists c t, In (LogStatus c t "import")
                   (events_of (update_iteration env args params rc) h)) <->
   (exists c p, In (ReplicationUpdate c p CHANGED)
                   (events_of (update_iteration env args params rc) h))) /\
  ((exists e, In e (events_of (update_iteration env args params rc) h) /\
              is_indexing e = true) <->
   (do_index args = true /\
    exists c p, In (ReplicationUpdate c p CHANGED)
                   (events_of (update_iteration env args params rc) h))) /\
  ((exists c b, In (SetIndexed c b)
                   (events_of (update_iteration env args params rc) h)) <->
   (do_index args = true /\
    exists c p, In (ReplicationUpdate c p CHANGED)
                   (events_of (update_iteration env args params rc) h))) /\
  ((exists c t, In (LogStatus c t "index")
                   (events_of (update_iteration env args params rc) h)) <->
   (do_index args = true /\
    exists c p, In (ReplicationUpdate c p CHANGED)
                   (events_of (update_iteration env args params rc) h))) /\
  (forall c b,
      In (SetIndexed c b) (events_of (update_iteration env args params rc) h) ->
      b = true).
Proof.
  destruct (update_iteration_core env args params rc h)
    as (conn & start & state & row & rest & F & Hcase).
  cbn zeta in Hcase. rewrite Forall_forall in F.
  destruct Hcase as [(-> & ->) | [(-> & Hix & ->) | (-> & Hix & t & conn2 & ->)]].
  all: repeat match goal with
              | |- _ /\ _ => split
              | |- _ <-> _ => split
              end;
    intros; in_core F; in_core_goal.
Qed.

Lemma iteration_logs_and_indexes_iff_witness :
  In (SetIndexed 2%nat true)
     (events_of
        (update_iteration (steady_env CHANGED 0)
           (update_args planet_config true true)
           (update_params (update_args planet_config true true)) None)
        []) /\
  true = true.
Proof.
  assert (In (SetIndexed 2%nat true)
             (events_of
                (update_iteration (steady_env CHANGED 0)
                   (update_args planet_config true true)
                   (update_params (update_args planet_config true true)) None)
                [])) as Hin
    by (vm_compute; auto 20).
  split; [exact Hin|].
  exact (proj2 (proj2 (proj2 (proj2
           (iteration_logs_and_indexes_iff _ _ _ _ _)))) _ _ Hin).
Defined.

(** X8: a run sleeps only in the update mode without [--once], and then
    only for the configured recheck interval: under [--init], under
    [--check-for-updates] and under [--once] nothing ever sleeps. *)
Theorem sleeps_only_to_recheck env value fuel args h secs :
  In (Sleep secs) (events_of (run env value fuel args) h) ->
  init args = false /\
  check_for_updates args = false /\
  once args = false /\
  secs = REPLICATION_RECHECK_INTERVAL (config args).
Proof.
  intros Hin.
  assert (Forall (fun e => match e with
                           | Sleep s =>
                               init args = false /\
                               check_for_updates args = false /\
                               once args = false /\
                               s = REPLICATION_RECHECK_INTERVAL (config args)
                           | _ => True
                           end)
                 (events_of (run env value fuel args) h)) as F.
  { apply emits_only_events. apply run_emits.
    - intros; exact I.
    - intros _. unfold_calls. emits; exact I.
    - intros _ _. unfold_calls. emits; exact I.
    - intros Hinit Hcheck. apply update_emits; [intros; exact I|].
      apply update_iteration_emits. intros h1 e1 Hin1.
      iteration_cases env args (update_params args)
        (if once args then None
         else Some (REPLICATION_RECHECK_INTERVAL (config args))) h1;
        rewrite Hev in Hin1; clear Hev Hrun;
        destruct (once args), state; each_event Hin1; auto. }
  rewrite Forall_forall in F. exact (F _ Hin).
Qed.

Lemma sleeps_only_to_recheck_witness :
  In (Sleep 60)
     (events_of
        (run (steady_env NO_CHANGES 0) exit_value 2
           (update_args planet_config false true))
        []) /\
  once (update_args planet_config false true) = false /\
  60 = REPLICATION_RECHECK_INTERVAL (config (update_args planet_config false true)).
Proof.
  assert (In (Sleep 60)
             (events_of
                (run (steady_env NO_CHANGES 0) exit_value 2
                   (update_args planet_config false true))
                [])) as Hin
    by (vm_compute; auto 30).
  split; [exact Hin|].
  exact (proj2 (proj2 (sleeps_only_to_recheck _ _ _ _ _ _ Hin))).
Defined.

(** X9: [_update] raises a [UsageError] exactly when the update interval
    is too low for download.geofabrik.de or when updates are to run
    continuously without indexing, and then after one fatal log message
    and no other call.  The local [recheck_interval] is never read
    while it is unbound.  Whatever else [_update] raises is what
    [time.sleep] raised, in continuous mode, on the configured recheck
    interval, as the last call of the run; under [--once], and with a
    recheck interval that [time.sleep] accepts (and no sleep that the
    operating system refuses), a [UsageError] is all that [_update]
    raises. *)
Theorem update_raises_iff env value fuel args h :
  ((exists msg h', _update env value fuel args h = Raised (UsageError msg) h') <->
   (Py.contains geofabrik_host (REPLICATION_URL (config args))
    && (REPLICATION_UPDATE_INTERVAL (config args) <? 86400) = true \/
    (once args = false /\ do_index args = false))) /\
  (forall msg h',
      _update env value fuel args h = Raised (UsageError msg) h' ->
      exists text, h' = h ++ [Log FATAL text]) /\
  (forall name h',
      _update env value fuel args h <> Raised (UnboundLocalError name) h') /\
  (forall e h',
      _update env value fuel args h = Raised e h' ->
      (exists msg, e = UsageError msg) \/
      (once args = false /\
       exists pre,
         h' = h ++ pre ++ [Sleep (REPLICATION_RECHECK_INTERVAL (config args))] /\
         sleep_failure env (h ++ pre)
           (REPLICATION_RECHECK_INTERVAL (config args)) = Some e)) /\
  (once args = true \/
   (0 <= REPLICATION_RECHECK_INTERVAL (config args) <= max_seconds /\
    forall h', sleep_refused env h'
                 (REPLICATION_RECHECK_INTERVAL (config args)) = false) ->
   forall e h',
     _update env value fuel args h = Raised e h' ->
     exists msg, e = UsageError msg).
Proof.
  assert (forall e h',
             _update env value fuel args h = Raised e h' ->
             (exists msg text, e = UsageError msg /\ h' = h ++ [Log FATAL text]) \/
             (once args = false /\
              exists pre,
                h' = h ++ pre
                       ++ [Sleep (REPLICATION_RECHECK_INTERVAL (config args))] /\
                sleep_failure env (h ++ pre)
                  (REPLICATION_RECHECK_INTERVAL (config args)) = Some e))
    as Hcases.
  { intros e h' E. apply update_raises in E.
    destruct E as [(_ & -> & ->) | [(_ & _ & _ & -> & ->)
                                   | (_ & Honce & _ & pre & -> & Hfail)]].
    - left. unfold invalid_interval. eauto.
    - left. unfold bad_no_index. eauto.
    - right. eauto. }
  assert (forall e h0 secs,
             sleep_failure env h0 secs = Some e ->
             (forall msg, e <> UsageError msg) /\
             (forall name, e <> UnboundLocalError name)) as Hsleep.
  { intros e h0 secs Hfail. apply sleep_failure_exn in Hfail.
    destruct Hfail as [-> | [-> | ->]]; split; discriminate. }
  split; [split|split; [|split; [|split]]].
  - intros (msg & h' & E). apply update_raises in E.
    destruct E as [(Hlow & _) | [(_ & Honce & Hix & _)
                                | (_ & _ & _ & pre & _ & Hfail)]]; auto.
    destruct (Hsleep _ _ _ Hfail) as (Hno & _). exfalso. exact (Hno _ eq_refl).
  - intros Hcase.
    destruct (Py.contains geofabrik_host (REPLICATION_URL (config args))
              && (REPLICATION_UPDATE_INTERVAL (config args) <? 86400)) eqn:Hlow.
    + unfold _update, check_update_interval, LOG_fatal, invalid_interval.
      cbn [base_url update_interval update_params]. rewrite Hlow.
      repeat step. unfold raise. eauto.
    + destruct Hcase as [Hcase | (Honce & Hix)]; [discriminate Hcase|].
      unfold _update, check_update_interval, check_continuous, LOG_fatal,
        bad_no_index.
      cbn [base_url update_interval update_params].
      rewrite Hlow, Honce, Hix. cbn [negb]. repeat step. unfold raise. eauto.
  - intros msg h' E.
    destruct (Hcases _ _ E) as [(msg' & text & _ & ->) | (_ & pre & _ & Hfail)];
      [eauto|].
    destruct (Hsleep _ _ _ Hfail) as (Hno & _). exfalso. exact (Hno _ eq_refl).
  - intros name h' E.
    destruct (Hcases _ _ E) as [(msg' & text & He & _) | (_ & pre & _ & Hfail)];
      [discriminate He|].
    destruct (Hsleep _ _ _ Hfail) as (_ & Hno). exact (Hno _ eq_refl).
  - intros e h' E.
    destruct (Hcases _ _ E) as [(msg' & text & He & _) | Hs]; eauto.
  - intros Hfine e h' E.
    destruct (Hcases _ _ E) as [(msg' & text & He & _) | (Honce & pre & _ & Hfail)];
      [eauto|].
    destruct Hfine as [Hfine | (Hrange & Hos)]; [congruence|].
    rewrite (sleep_failure_none _ _ _ Hrange (Hos _)) in Hfail.
    discriminate Hfail.
Qed.

Lemma update_raises_iff_witness :
  _update (steady_env CHANGED 0) exit_value 2
    (update_args planet_config false false) [] =
  Raised (UsageError "Bad argument '--no-index'.")
    [Log FATAL "Indexing cannot be disabled when running updates continuously."] /\
  (exists text,
      [Log FATAL "Indexing cannot be disabled when running updates continuously."] =
      [] ++ [Log FATAL text]) /\
  0 <= REPLICATION_RECHECK_INTERVAL
         (config (update_args planet_config false false)) <= max_seconds /\
  (forall h', sleep_refused (steady_env CHANGED 0) h' 60 = false) /\
  exists msg, UsageError "Bad argument '--no-index'." = UsageError msg.
Proof.
  assert (_update (steady_env CHANGED 0) exit_value 2
            (update_args planet_config false false) [] =
          Raised (UsageError "Bad argument '--no-index'.")
            [Log FATAL "Indexing cannot be disabled when running updates continuously."])
    as E by (vm_compute; reflexivity).
  assert (0 <= REPLICATION_RECHECK_INTERVAL
                 (config (update_args planet_config false false))
          <= max_seconds) as Hrange
    by (rewrite max_seconds_value; cbn; lia).
  assert (forall h', sleep_refused (steady_env CHANGED 0) h' 60 = false)
    as Hos by reflexivity.
  split; [exact E|].
  split; [exact (proj1 (proj2 (update_raises_iff (steady_env CHANGED 0)
                                 exit_value 2
                                 (update_args planet_config false false) []))
                   _ _ E)|].
  split; [exact Hrange|]. split; [exact Hos|].
  exact (proj2 (proj2 (proj2 (proj2
           (update_raises_iff (steady_env CHANGED 0) exit_value 2
              (update_args planet_config false false) []))))
           (or_intror (conj Hrange Hos)) _ _ E).
Defined.

(** ** The report, in general *)

(** X10: when indexing ran, the import and indexing durations of the
    report are whole seconds that add up to the total, or to one second
    less than the total; when it did not run, the import duration is
    the total.  (Clock reads in order, and less than [2**34] seconds
    between the first and the last.) *)
Theorem report_durations_add_up batchdate start_import start_index end_ :
  start_import <= start_index <= end_ ->
  end_ - start_import < 2 ^ 34 * 1000000 ->
  (exists import indexing total,
      0 <= import /\ 0 <= indexing /\
      import_duration
        (report_of batchdate start_import (Some start_index) end_) =
        Dt.of_seconds import /\
      index_duration
        (report_of batchdate start_import (Some start_index) end_) =
        Some (Dt.of_seconds indexing) /\
      total_duration
        (report_of batchdate start_import (Some start_index) end_) =
        Dt.of_seconds total /\
      import + indexing <= total <= import + indexing + 1) /\
  import_duration (report_of batchdate start_import None end_) =
  total_duration (report_of batchdate start_import None end_).
Proof.
  intros Horder Hrange. split; [|reflexivity].
  exists ((start_index - start_import) / 1000000),
         ((end_ - start_index) / 1000000),
         ((end_ - start_import) / 1000000).
  cbn [report_of import_duration index_duration total_duration].
  unfold Dt.sub.
  rewrite !round_time_rounds_down by lia.
  unfold Dt.us_per_second.
  pose proof (Z_div_mod_eq_full (start_index - start_import) 1000000).
  pose proof (Z.mod_pos_bound (start_index - start_import) 1000000 eq_refl).
  pose proof (Z_div_mod_eq_full (end_ - start_index) 1000000).
  pose proof (Z.mod_pos_bound (end_ - start_index) 1000000 eq_refl).
  pose proof (Z_div_mod_eq_full (end_ - start_import) 1000000).
  pose proof (Z.mod_pos_bound (end_ - start_import) 1000000 eq_refl).
  repeat split; try reflexivity; try lia.
Qed.

Lemma report_durations_add_up_witness :
  0 <= 5700000 <= 20300000 /\
  20300000 - 0 < 2 ^ 34 * 1000000 /\
  exists import indexing total,
    0 <= import /\ 0 <= indexing /\
    import_duration (report_of (-100000000) 0 (Some 5700000) 20300000) =
      Dt.of_seconds import /\
    index_duration (report_of (-100000000) 0 (Some 5700000) 20300000) =
      Some (Dt.of_seconds indexing) /\
    total_duration (report_of (-100000000) 0 (Some 5700000) 20300000) =
      Dt.of_seconds total /\
    import + indexing <= total <= import + indexing + 1.
Proof.
  assert (0 <= 5700000 <= 20300000) as Horder by lia.
  assert (20300000 - 0 < 2 ^ 34 * 1000000) as Hrange by lia.
  split; [exact Horder|]. split; [exact Hrange|].
  exact (proj1 (report_durations_add_up (-100000000) 0 5700000 20300000
                  Horder Hrange)).
Defined.

(** X11: [round_time] drops the fraction of a second toward zero, for
    every duration of less than [2**34] seconds either way: it is odd
    ([round_time (-d) = - round_time d]), it never grows a duration in
    absolute value, a duration of less than a second shows as zero, and
    a negative duration is rounded up, not down. *)
Theorem round_time_toward_zero delta :
  - (2 ^ 34 * 1000000) < delta < 2 ^ 34 * 1000000 ->
  round_time delta = Dt.of_seconds (Z.quot delta Dt.us_per_second) /\
  round_time (- delta) = - round_time delta /\
  Z.abs (round_time delta) <= Z.abs delta /\
  (Z.abs delta < Dt.us_per_second -> round_time delta = 0) /\
  (delta <= 0 -> delta <= round_time delta <= 0).
Proof.
  intros H.
  rewrite (round_time_truncates delta) by assumption.
  rewrite (round_time_truncates (- delta)) by lia.
  unfold Dt.of_seconds, Dt.us_per_second.
  pose proof (Z.quot_rem' delta 1000000) as E.
  pose proof (Z.rem_bound_abs delta 1000000) as B.
  rewrite Z.quot_opp_l by lia.
  split; [reflexivity|]. split; [lia|].
  assert (Z.abs (Z.quot delta 1000000 * 1000000) <= Z.abs delta) as Habs.
  { destruct (Z_le_gt_dec 0 delta).
    - pose proof (Z.rem_nonneg delta 1000000). 
      pose proof (Z.quot_pos delta 1000000). lia.
    - pose proof (Z.rem_nonpos delta 1000000).
      assert (Z.quot delta 1000000 <= 0) by (apply Z.quot_le_upper_bound; lia).
      lia. }
  split; [exact Habs|]. split.
  - intros Hsmall.
    assert (Z.quot delta 1000000 = 0) as ->; [|reflexivity].
    apply Z.quot_small_iff; lia.
  - intros Hneg. pose proof (Z.rem_nonpos delta 1000000).
    assert (Z.quot delta 1000000 <= 0) by (apply Z.quot_le_upper_bound; lia).
    lia.
Qed.

Lemma round_time_toward_zero_witness :
  - (2 ^ 34 * 1000000) < -1500000 < 2 ^ 34 * 1000000 /\
  round_time (-1500000) = Dt.of_seconds (-1) /\
  (-1500000 <= 0 -> -1500000 <= round_time (-1500000) <= 0).
Proof.
  assert (- (2 ^ 34 * 1000000) < -1500000 < 2 ^ 34 * 1000000) as H by lia.
  split; [exact H|].
  split.
  - exact (proj1 (round_time_toward_zero (-1500000) H)).
  - exact (proj2 (proj2 (proj2 (proj2 (round_time_toward_zero (-1500000) H))))).
Defined.

(** ** The checks, in general *)

(** X12: the check on the update interval fails exactly when the string
    download.geofabrik.de occurs somewhere in the replication URL, be
    it in the host or anywhere else, and the interval is below 86400. *)
Theorem interval_check_fails_iff args h :
  (exists e h', check_update_interval (update_params args) h = Raised e h') <->
  ((exists pre post,
       REPLICATION_URL (config args) =
       (pre ++ "download.geofabrik.de" ++ post)%string) /\
   REPLICATION_UPDATE_INTERVAL (config args) < 86400).
Proof.
  unfold check_update_interval, LOG_fatal.
  cbn [base_url update_interval update_params].
  rewrite <- (contains_spec "download.geofabrik.de").
  fold geofabrik_host.
  destruct (Py.contains geofabrik_host (REPLICATION_URL (config args)));
    destruct (Z.ltb_spec (REPLICATION_UPDATE_INTERVAL (config args)) 86400);
    cbn [andb].
  - split; intros _.
    + split; [reflexivity | assumption].
    + repeat step. unfold raise. eauto.
  - split; [intros (e & h' & E); discriminate E | intros (_ & E); lia].
  - split; [intros (e & h' & E); discriminate E | intros (E & _); discriminate E].
  - split; [intros (e & h' & E); discriminate E | intros (E & _); discriminate E].
Qed.

Lemma interval_check_fails_iff_witness :
  (exists pre post,
      REPLICATION_URL
        (config (update_args
                   {| REPLICATION_URL :=
                        "https://mirror.example.org/download.geofabrik.de/europe-updates";
                      REPLICATION_UPDATE_INTERVAL := 3600;
                      REPLICATION_MAX_DIFF := 50;
                      REPLICATION_RECHECK_INTERVAL := 60;
                      FLATNODE_FILE := "";
                      get_libpq_dsn := "dbname=nominatim";
                      get_import_style_file := "" |} true true)) =
      (pre ++ "download.geofabrik.de" ++ post)%string) /\
  exists e h',
    check_update_interval
      (update_params
         (update_args
            {| REPLICATION_URL :=
                 "https://mirror.example.org/download.geofabrik.de/europe-updates";
               REPLICATION_UPDATE_INTERVAL := 3600;
               REPLICATION_MAX_DIFF := 50;
               REPLICATION_RECHECK_INTERVAL := 60;
               FLATNODE_FILE := "";
               get_libpq_dsn := "dbname=nominatim";
               get_import_style_file := "" |} true true)) [] =
    Raised e h'.
Proof.
  assert (exists pre post,
             REPLICATION_URL
               (config (update_args
                          {| REPLICATION_URL :=
                               "https://mirror.example.org/download.geofabrik.de/europe-updates";
                             REPLICATION_UPDATE_INTERVAL := 3600;
                             REPLICATION_MAX_DIFF := 50;
                             REPLICATION_RECHECK_INTERVAL := 60;
                             FLATNODE_FILE := "";
                             get_libpq_dsn := "dbname=nominatim";
                             get_import_style_file := "" |} true true)) =
             (pre ++ "download.geofabrik.de" ++ post)%string) as Hsub
    by (exists "https://mirror.example.org/"%string, "/europe-updates"%string;
        reflexivity).
  split; [exact Hsub|].
  apply (proj2 (interval_check_fails_iff _ [])).
  split; [exact Hsub | cbn; lia].
Defined.

(** ** The report and the log level *)

Lemma sleeping_is_not_report secs r :
  sleeping_message secs <> report_message r.
Proof. unfold sleeping_message, report_message. cbn [append]. discriminate. Qed.

(** X13: the report follows the level of the logger.  With WARNING
    disabled an iteration emits no report line and reads the clock only
    at its start and when indexing starts; with WARNING enabled it
    reads the clock once more and emits one report line. *)
Theorem report_follows_log_level env args params rc h :
  ((forall h', log_enabled env h' WARNING = false) ->
   (forall r,
       ~ In (Log WARNING (report_message r))
            (events_of (update_iteration env args params rc) h)) /\
   List.length
     (filter (fun e => match e with DatetimeNow _ => true | _ => false end)
        (events_of (update_iteration env args params rc) h)) =
   (if existsb is_indexing (events_of (update_iteration env args params rc) h)
    then 2%nat else 1%nat)) /\
  ((forall h', log_enabled env h' WARNING = true) ->
   (exists r,
       In (Log WARNING (report_message r))
          (events_of (update_iteration env args params rc) h)) /\
   List.length
     (filter (fun e => match e with DatetimeNow _ => true | _ => false end)
        (events_of (update_iteration env args params rc) h)) =
   (if existsb is_indexing (events_of (update_iteration env args params rc) h)
    then 3%nat else 2%nat)).
Proof.
  split; intros Hlevel;
    iteration_cases env args params rc h; rewrite Hev; clear Hev Hrun;
    rewrite Hlevel in Hlog; try discriminate Hlog;
    destruct state; cbn [is_not_NO_CHANGES andb] in Hc; try discriminate Hc;
    destruct (once args), rc;
    cbn [is_not_NO_CHANGES is_NO_CHANGES app filter existsb is_indexing orb
           List.length];
    (split; [|reflexivity]).
  all: try (intros r Hin; cbn [In] in Hin;
            repeat (destruct Hin as [Hin | Hin]; [try discriminate Hin|]);
            try contradiction;
            injection Hin as Hin; exact (sleeping_is_not_report _ _ Hin)).
  all: eexists; cbn [In]; eauto 25.
Qed.

Lemma report_follows_log_level_witness :
  (forall h', log_enabled (steady_env CHANGED 0) h' WARNING = true) /\
  exists r,
    In (Log WARNING (report_message r))
       (events_of
          (update_iteration (steady_env CHANGED 0)
             (update_args planet_config true true)
             (update_params (update_args planet_config true true)) None)
          []).
Proof.
  assert (forall h', log_enabled (steady_env CHANGED 0) h' WARNING = true)
    as Hlevel by reflexivity.
  split; [exact Hlevel|].
  exact (proj1 (proj2 (report_follows_log_level (steady_env CHANGED 0)
                         (update_args planet_config true true)
                         (update_params (update_args planet_config true true))
                         None [])
                  Hlevel)).
Defined.

(** ** Connections over a whole run *)

Lemma run_balanced env value fuel args h :
  exists evs,
    history_of (run env value fuel args h) = h ++ evs /\
    fold_left live_step evs [] = [].
Proof.
  unfold run. rewrite bind_setdefaulttimeout.
  destruct (seconds_error (socket_timeout args));
    [cbn [history_of]; eexists [_]; split; reflexivity|].
  cbv beta.
  destruct (init args); [|destruct (check_for_updates args)].
  - unfold _init_replication, LOG_warning, replication_init_replication,
      refresh_create_functions, conn_close.
    destruct (update_functions args); repeat step; unfold ret;
      cbn [history_of]; eexists; (split; [reflexivity|]);
      cbn [fold_left live_step]; apply remove_self.
  - unfold _check_for_updates, replication_check_for_updates, conn_close.
    repeat step. unfold bind, ret, emit. cbn beta iota. cbn [history_of].
    norm_hist. eexists; (split; [reflexivity|]).
    cbn [fold_left live_step]. apply remove_self.
  - destruct (update_idle env value fuel args
                (h ++ [SetDefaultTimeout (socket_timeout args)]))
      as (evs & E & I & L).
    exists (SetDefaultTimeout (socket_timeout args) :: evs).
    split; [rewrite E, <- app_assoc; reflexivity|].
    cbn [fold_left live_step]. exact L.
Qed.

(** X14: [run] leaks no connection: started with none open, it ends
    with none open, in each of its three modes, when it returns and
    when it raises a usage error. *)
Theorem run_closes_its_connections env value fuel args h :
  live h = [] ->
  live (history_of (run env value fuel args h)) = [].
Proof.
  intros Hlive.
  destruct (run_balanced env value fuel args h) as (evs & E & L).
  rewrite E, live_app, Hlive. exact L.
Qed.

Lemma run_closes_its_connections_witness :
  live [] = [] /\
  live (history_of
          (run (steady_env CHANGED 0) exit_value 2
             (update_args planet_config false true) [])) = [].
Proof.
  split; [reflexivity|].
  exact (run_closes_its_connections (steady_env CHANGED 0) exit_value 2
           (update_args planet_config false true) [] eq_refl).
Defined.

Lemma on_open_nil l : on_open_connections l [].
Proof. intros [|x pre] e post c E; discriminate E. Qed.

Lemma on_open_cons l e evs :
  (forall c, conn_of e = Some c -> In c l) ->
  on_open_connections (live_step l e) evs ->
  on_open_connections l (e :: evs).
Proof.
  intros He Hevs [|x pre] e' post c E Hc; injection E as E1 E2; subst.
  - cbn. auto.
  - cbn [fold_left]. eapply Hevs; eauto.
Qed.

Lemma on_open_app l evs1 evs2 :
  on_open_connections l evs1 ->
  on_open_connections (fold_left live_step evs1 l) evs2 ->
  on_open_connections l (evs1 ++ evs2).
Proof.
  revert l. induction evs1 as [|x evs1 IH]; intros l H1 H2; cbn in *.
  - assumption.
  - apply on_open_cons.
    + intros c Hc. exact (H1 [] x evs1 c eq_refl Hc).
    + apply IH; [|assumption].
      intros pre e post c E Hc.
      exact (H1 (x :: pre) e post c (f_equal _ E) Hc).
Qed.

Ltac on_open :=
  repeat (apply on_open_cons;
          [ cbn [conn_of]; intros ? Hsome;
            first [ discriminate Hsome
                  | injection Hsome as <-; cbn [In]; auto ]
          | cbn [live_step]; rewrite ?remove_self ]);
  apply on_open_nil.

Lemma update_iteration_on_open env args params rc h :
  on_open_connections [] (events_of (update_iteration env args params rc) h).
Proof.
  iteration_cases env args params rc h; rewrite Hev; clear Hev Hrun;
    destruct (once args), state, rc;
    cbn [is_not_NO_CHANGES is_NO_CHANGES andb app] in *;
    try discriminate; on_open.
Qed.

Lemma while_true_on_open env args params rc fuel :
  forall h, exists evs,
    history_of (while_true fuel (update_iteration env args params rc) h) = h ++ evs /\
    on_open_connections [] evs /\
    fold_left live_step evs [] = [].
Proof.
  induction fuel as [|fuel IH]; intros h.
  - exists []. cbn. rewrite app_nil_r. auto using on_open_nil.
  - destruct (update_iteration_idle env args params rc h) as (E & _ & L).
    pose proof (update_iteration_on_open env args params rc h) as O.
    cbn [while_true]. unfold bind.
    destruct (update_iteration env args params rc h) as [[[|] s] h1 | e h1];
      cbn [history_of fst snd] in *; subst h1.
    + eexists. split; [reflexivity|]. auto.
    + destruct (IH (h ++ events_of (update_iteration env args params rc) h))
        as (evs & E2 & O2 & L2).
      exists (events_of (update_iteration env args params rc) h ++ evs).
      rewrite E2, app_assoc. split; [reflexivity|]. split.
      * apply on_open_app; [assumption|]. rewrite L. assumption.
      * rewrite fold_left_app, L. assumption.
    + eexists. split; [reflexivity|]. auto.
Qed.

Lemma update_on_open env value fuel args h :
  exists evs,
    history_of (_update env value fuel args h) = h ++ evs /\
    on_open_connections [] evs.
Proof.
  unfold _update, check_update_interval, check_continuous, LOG_fatal.
  destruct (_ && _).
  - repeat step. eexists [_]. split; [reflexivity|on_open].
  - step. destruct (once args); cbn [negb].
    + step. unfold bind.
      destruct (while_true_on_open env args (update_params args) None fuel h)
        as (evs & E & O & L).
      exists evs. destruct (while_true _ _ _); cbn [history_of ret] in *; auto.
    + destruct (do_index args); cbn [negb].
      * repeat step. unfold bind.
        destruct (while_true_on_open env args (update_params args)
                    (Some (REPLICATION_RECHECK_INTERVAL (config args))) fuel h)
          as (evs & E & O & L).
        exists evs. destruct (while_true _ _ _); cbn [history_of ret] in *; auto.
      * repeat step. eexists [_]. split; [reflexivity|on_open].
Qed.

(** X15: in a run that starts with no connection open, every call that
    is made on a connection (apply, status read and writes,
    initialisation, the check for updates, [close] itself) is made on a
    connection that is open at that moment: none is used after it was
    closed, and none is closed twice. *)
Theorem calls_use_open_connections env value fuel args h :
  live h = [] ->
  on_open_connections (live h) (events_of (run env value fuel args) h).
Proof.
  intros Hlive. rewrite Hlive.
  assert (exists evs,
             history_of (run env value fuel args h) = h ++ evs /\
             on_open_connections [] evs) as (evs & E & O).
  { unfold run. rewrite bind_setdefaulttimeout.
    destruct (seconds_error (socket_timeout args));
      [cbn [history_of]; eexists [_]; split; [reflexivity|on_open]|].
    cbv beta.
    destruct (init args); [|destruct (check_for_updates args)].
    - unfold _init_replication, LOG_warning, replication_init_replication,
        refresh_create_functions, conn_close.
      destruct (update_functions args); repeat step; unfold ret;
        cbn [history_of]; eexists; (split; [reflexivity|]); on_open.
    - unfold _check_for_updates, replication_check_for_updates, conn_close.
      repeat step. unfold bind, ret, emit. cbn beta iota. cbn [history_of].
      norm_hist. eexists; (split; [reflexivity|]); on_open.
    - destruct (update_on_open env value fuel args
                  (h ++ [SetDefaultTimeout (socket_timeout args)]))
        as (evs & E & O).
      exists (SetDefaultTimeout (socket_timeout args) :: evs).
      split; [rewrite E, <- app_assoc; reflexivity|].
      apply on_open_cons; [discriminate|assumption]. }
  unfold events_of. rewrite E, skipn_length_app. exact O.
Qed.

Lemma calls_use_open_connections_witness :
  live [] = [] /\
  on_open_connections (live [])
    (events_of
       (run (steady_env CHANGED 0) exit_value 2
          (update_args planet_config false true))
       []).
Proof.
  split; [reflexivity|].
  exact (calls_use_open_connections (steady_env CHANGED 0) exit_value 2
           (update_args planet_config false true) [] eq_refl).
Defined.

(** ** Seconds that the standard library refuses *)

(** X16: a socket timeout that [socket.setdefaulttimeout] refuses ends
    the run at once, in every mode: [run] raises [ValueError] for a
    negative timeout and [OverflowError] for one of more than
    [max_seconds] either way, and that call is the only one it has
    made; no connection is opened, nothing is initialised, checked or
    applied. *)
Theorem run_refuses_socket_timeout env value fuel args h :
  (- max_seconds <= socket_timeout args < 0 ->
   run env value fuel args h =
     Raised ValueError (h ++ [SetDefaultTimeout (socket_timeout args)])) /\
  (socket_timeout args < - max_seconds \/ max_seconds < socket_timeout args ->
   run env value fuel args h =
     Raised OverflowError (h ++ [SetDefaultTimeout (socket_timeout args)])).
Proof.
  unfold run. rewrite bind_setdefaulttimeout. unfold seconds_error.
  destruct (Z.ltb_spec max_seconds (Z.abs (socket_timeout args)));
    [|destruct (Z.ltb_spec (socket_timeout args) 0)];
    (split; [intros; first [reflexivity | lia]
            |intros; first [reflexivity | lia]]).
Qed.

Lemma run_refuses_socket_timeout_witness :
  - max_seconds <= -1 < 0 /\
  run (steady_env CHANGED 0) exit_value 2
    {| config := planet_config; project_dir := []; data_dir := "";
       osm2pgsql_path := ""; osm2pgsql_cache := None; threads := None;
       init := false; update_functions := true;
       check_for_updates := false; once := true; do_index := true;
       socket_timeout := -1 |} [] =
  Raised ValueError ([] ++ [SetDefaultTimeout (-1)]).
Proof.
  assert (- max_seconds <= -1 < 0) as Hrange
    by (rewrite max_seconds_value; lia).
  split; [exact Hrange|].
  exact (proj1 (run_refuses_socket_timeout (steady_env CHANGED 0) exit_value 2
                  {| config := planet_config; project_dir := []; data_dir := "";
                     osm2pgsql_path := ""; osm2pgsql_cache := None;
                     threads := None;
                     init := false; update_functions := true;
                     check_for_updates := false; once := true; do_index := true;
                     socket_timeout := -1 |} [])
           Hrange).
Defined.

Lemma filter_singleton_split {A} (f : A -> bool) (l : list A) x :
  filter f l = [x] ->
  exists a b, l = a ++ x :: b /\ filter f a = [] /\ filter f b = [].
Proof.
  induction l as [|y l IH]; cbn [filter]; intros E; [discriminate E|].
  destruct (f y) eqn:Hy.
  - inversion E; subst. exists [], l. auto.
  - destruct (IH E) as (a & b & -> & Ha & Hb).
    exists (y :: a), b. cbn [app filter]. rewrite Hy. auto.
Qed.

Lemma ends_with_other {A} (a b pre : list A) x s :
  a ++ x :: b = pre ++ [s] -> x <> s -> exists b', b = b' ++ [s].
Proof.
  intros E Hx. destruct b as [|y b] using rev_ind.
  - apply app_inj_tail in E. destruct E as (_ & E). contradiction.
  - clear IHb. exists b.
    change (a ++ x :: b ++ [y]) with (a ++ (x :: b) ++ [y]) in E.
    rewrite app_assoc in E. apply app_inj_tail in E.
    destruct E as (_ & ->). reflexivity.
Qed.

Lemma while_true_refused_sleep env args params secs e :
  once args = false ->
  seconds_error secs = Some e ->
  forall fuel h conn p,
    In (ReplicationUpdate conn p NO_CHANGES)
       (events_of (while_true fuel (update_iteration env args params (Some secs))) h) ->
    exists a b,
      while_true fuel (update_iteration env args params (Some secs)) h =
        Raised e (h ++ a ++ ReplicationUpdate conn p NO_CHANGES :: b
                    ++ [Sleep secs]) /\
      filter is_apply b = [].
Proof.
  intros Honce Herr.
  induction fuel as [|fuel IH]; intros h conn p Hin.
  - unfold events_of in Hin. cbn [while_true ret history_of] in Hin.
    rewrite skipn_all in Hin. contradiction.
  - destruct (update_iteration_outcome env args params (Some secs) h)
      as (conn1 & state & Happly
          & [(Hstate & Hrun) | (_ & -> & secs' & pre & Hs & Hev & Hrun)]);
      [eauto| |].
    + rewrite Honce in Hrun.
      destruct Hstate as [Hstate | ->]; [congruence|].
      unfold events_of in Hin.
      erewrite while_true_continue in Hin by exact Hrun.
      erewrite while_true_continue by exact Hrun.
      set (ev1 := events_of (update_iteration env args params (Some secs)) h) in *.
      destruct (while_true_idle env args params (Some secs) fuel (h ++ ev1))
        as (evs & E & _ & _).
      assert (events_of
                (while_true fuel (update_iteration env args params (Some secs)))
                (h ++ ev1) = evs) as Hevs
        by (unfold events_of; rewrite E; apply skipn_length_app).
      rewrite E, <- app_assoc, skipn_length_app in Hin.
      apply in_app_or in Hin. destruct Hin as [Hin | Hin].
      * exfalso.
        assert (In (ReplicationUpdate conn p NO_CHANGES) (filter is_apply ev1))
          as Hf by (apply filter_In; split; [assumption|reflexivity]).
        rewrite Happly in Hf. destruct Hf as [Hf | []]. discriminate Hf.
      * rewrite <- Hevs in Hin.
        destruct (IH _ _ _ Hin) as (a & b & -> & Hb).
        exists (ev1 ++ a), b. repeat rewrite <- app_assoc. auto.
    + inversion Hs; subst secs'. clear Hs.
      assert (sleep_failure env (h ++ pre) secs = Some e) as Hfail
        by (unfold sleep_failure; rewrite Herr; reflexivity).
      rewrite Hfail in Hrun.
      assert (while_true (S fuel)
                (update_iteration env args params (Some secs)) h =
              Raised e (h ++ events_of
                                (update_iteration env args params (Some secs)) h))
        as Hloop
        by (cbn [while_true]; unfold bind; rewrite Hrun; reflexivity).
      unfold events_of in Hin. rewrite Hloop in Hin.
      cbn [history_of] in Hin. rewrite skipn_length_app in Hin.
      rewrite Hloop.
      assert (In (ReplicationUpdate conn p NO_CHANGES)
                (filter is_apply
                   (events_of (update_iteration env args params (Some secs)) h)))
        as Hf by (apply filter_In; split; [assumption|reflexivity]).
      rewrite Happly in Hf. destruct Hf as [Hf | []].
      inversion Hf; subst conn1 p. clear Hf.
      destruct (filter_singleton_split _ _ _ Happly) as (a & b0 & Hsplit & _ & Hb0).
      rewrite Hsplit in Hev.
      destruct (ends_with_other _ _ _ _ _ Hev) as (b & ->); [discriminate|].
      exists a, b. rewrite Hsplit. split; [reflexivity|].
      rewrite filter_app in Hb0. apply app_eq_nil in Hb0. apply Hb0.
Qed.

(** X17: a recheck interval that [time.sleep] refuses, a negative one or
    one of more than [max_seconds], goes unnoticed by the checks at
    startup and ends continuous mode at the first apply call that
    returns [NO_CHANGES]: that iteration is completed up to its call of
    [time.sleep], which raises ([ValueError] for a negative interval
    that fits, [OverflowError] otherwise), and no apply call follows. *)
Theorem refused_recheck_interval_ends_loop env value args fuel h :
  once args = false ->
  do_index args = true ->
  Py.contains geofabrik_host (REPLICATION_URL (config args))
  && (REPLICATION_UPDATE_INTERVAL (config args) <? 86400) = false ->
  REPLICATION_RECHECK_INTERVAL (config args) < 0 \/
  max_seconds < REPLICATION_RECHECK_INTERVAL (config args) ->
  check_update_interval (update_params args) h = Ok tt h /\
  check_continuous args h =
    Ok (Some (REPLICATION_RECHECK_INTERVAL (config args))) h /\
  forall conn p,
    In (ReplicationUpdate conn p NO_CHANGES)
       (events_of (_update env value fuel args) h) ->
    exists e a b,
      _update env value fuel args h =
        Raised e (h ++ a ++ ReplicationUpdate conn p NO_CHANGES :: b
                    ++ [Sleep (REPLICATION_RECHECK_INTERVAL (config args))]) /\
      filter is_apply b = [] /\
      (e = ValueError \/ e = OverflowError) /\
      (- max_seconds <= REPLICATION_RECHECK_INTERVAL (config args) < 0 ->
       e = ValueError).
Proof.
  intros Honce Hix Hok Hbad.
  split; [|split].
  - unfold check_update_interval.
    cbn [base_url update_interval update_params]. rewrite Hok. reflexivity.
  - unfold check_continuous. rewrite Honce, Hix. reflexivity.
  - intros conn p Hin.
    assert (exists e,
               seconds_error (REPLICATION_RECHECK_INTERVAL (config args)) = Some e /\
               (e = ValueError \/ e = OverflowError) /\
               (- max_seconds <= REPLICATION_RECHECK_INTERVAL (config args) < 0 ->
                e = ValueError)) as (e & Herr & He & Hneg).
    { unfold seconds_error.
      destruct (Z.ltb_spec max_seconds
                  (Z.abs (REPLICATION_RECHECK_INTERVAL (config args))));
        [|destruct (Z.ltb_spec (REPLICATION_RECHECK_INTERVAL (config args)) 0)];
        [exists OverflowError | exists ValueError | lia];
        (split; [reflexivity|]); (split; [auto|]); intros; first [reflexivity|lia]. }
    assert (forall h0,
               _update env value fuel args h0 =
               match while_true fuel
                       (update_iteration env args (update_params args)
                          (Some (REPLICATION_RECHECK_INTERVAL (config args)))) h0
               with
               | Ok state h1 => Ok (option_map value state) h1
               | Raised e1 h1 => Raised e1 h1
               end) as Hupd.
    { intros h0. rewrite update_passes_checks by auto. rewrite Honce.
      reflexivity. }
    assert (events_of (_update env value fuel args) h =
            events_of
              (while_true fuel
                 (update_iteration env args (update_params args)
                    (Some (REPLICATION_RECHECK_INTERVAL (config args))))) h)
      as Hsame.
    { unfold events_of. rewrite Hupd.
      destruct (while_true _ _ _); reflexivity. }
    rewrite Hsame in Hin.
    destruct (while_true_refused_sleep env args (update_params args) _ e
                Honce Herr fuel h conn p Hin) as (a & b & Hloop & Hb).
    exists e, a, b. rewrite Hupd, Hloop. auto.
Qed.

Lemma refused_recheck_interval_ends_loop_witness :
  (-5 < 0 \/ max_seconds < -5) /\
  - max_seconds <= -5 < 0 /\
  In (ReplicationUpdate 1%nat
        (update_params (update_args negative_recheck_config false true))
        NO_CHANGES)
     (events_of
        (_update (steady_env NO_CHANGES 0) exit_value 3
           (update_args negative_recheck_config false true))
        []) /\
  exists a b,
    _update (steady_env NO_CHANGES 0) exit_value 3
      (update_args negative_recheck_config false true) [] =
    Raised ValueError
      ([] ++ a
          ++ ReplicationUpdate 1%nat
               (update_params (update_args negative_recheck_config false true))
               NO_CHANGES
          :: b ++ [Sleep (-5)]).
Proof.
  assert (-5 < 0 \/ max_seconds < -5) as Hbad by (left; lia).
  assert (- max_seconds <= -5 < 0) as Hfits
    by (rewrite max_seconds_value; lia).
  split; [exact Hbad|]. split; [exact Hfits|].
  match goal with
  | |- In ?x ?l /\ _ => assert (In x l) as Hin by (vm_compute; auto)
  end.
  split; [exact Hin|].
  destruct (proj2 (proj2 (refused_recheck_interval_ends_loop
                            (steady_env NO_CHANGES 0) exit_value
                            (update_args negative_recheck_config false true)
                            3 [] eq_refl eq_refl eq_refl Hbad)) _ _ Hin)
    as (e & a & b & E & _ & _ & He).
  exists a, b. rewrite <- (He Hfits). exact E.
Defined.
